(** * The Tetris rule engine of [src/main.ts], embedded in Rocq

    The engine is a pure fold [updateState : State -> Action -> State] over
    immutable records.  JavaScript numbers only ever hold small integers
    here, so they are modelled by [Z]; arrays are lists; the one exception
    the engine can raise (``reduce of empty array with no initial value'' in
    [lowestYCube]) is modelled with [option]; the one effect it has
    ([Math.random] in [createTetrominos]) is modelled by passing the drawn
    catalogue index explicitly. *)

From Stdlib Require Import String ZArith List Bool Lia Sorted.
Import ListNotations.
Local Open Scope Z_scope.

(** ** Constants *)

Module Constants.
Definition GRID_WIDTH : Z := 10.
Definition GRID_HEIGHT : Z := 20.
Definition LEFT_BORDER : Z := 1.
End Constants.

Definition X_SPAWN_POINT : Z := Constants.GRID_WIDTH / 2.

(** ** Data model *)

Module Cube.
Record t : Set := mk { x : Z; y : Z }.
End Cube.

Module Tetrominos.
Record t : Set := mk
  { id : Z; cubes : list Cube.t; color : string; x : Z; y : Z }.
End Tetrominos.

Module State.
Record t : Set := mk
  { gameEnd : bool;
    gameBoard : list Tetrominos.t;
    currentTetrominos : Tetrominos.t;
    score : Z;
    highScore : Z }.
End State.

(** [Action] is an abstract class with three subclasses; [RotateAction] and
    [Restart] call [super(0, 0)], so their [x] and [y] fields read 0. *)
Inductive Action : Set :=
| MoveAction (x y : Z)
| RotateAction
| Restart.

Module ActionField.
Definition x (a : Action) : Z :=
  match a with MoveAction dx _ => dx | RotateAction => 0 | Restart => 0 end.
Definition y (a : Action) : Z :=
  match a with MoveAction _ dy => dy | RotateAction => 0 | Restart => 0 end.
End ActionField.

Definition cube (cx cy : Z) : Cube.t := Cube.mk cx cy.

Definition defaultTetrominos : list Tetrominos.t :=
  [ Tetrominos.mk 1 [cube 0 0; cube 0 (-1); cube 1 (-1); cube 2 (-1)]
      "green" X_SPAWN_POINT 0;
    Tetrominos.mk 1 [cube 0 0; cube 0 (-1); cube (-1) (-1); cube (-2) (-1)]
      "white" X_SPAWN_POINT 0;
    Tetrominos.mk 1 [cube 0 0; cube 1 0; cube 1 (-1); cube 2 (-1)]
      "red" X_SPAWN_POINT 0;
    Tetrominos.mk 1 [cube 0 0; cube (-1) 0; cube (-1) (-1); cube (-2) (-1)]
      "pink" X_SPAWN_POINT 0;
    Tetrominos.mk 1 [cube 0 0; cube 0 (-1); cube 1 0; cube 1 (-1)]
      "blue" X_SPAWN_POINT 0;
    Tetrominos.mk 1 [cube 0 0; cube 1 0; cube 2 0; cube 3 0]
      "yellow" X_SPAWN_POINT 0;
    Tetrominos.mk 1 [cube 0 0; cube 0 (-1); cube 1 (-1); cube (-1) (-1)]
      "purple" X_SPAWN_POINT 0 ].

(** ** Piece factory

    [randIndex] stands for [Math.floor(Math.random() * defaultTetrominos.length)],
    a number in 0..6.  The fall-back entry is only there to make [nth]
    total; no draw reaches it. *)
Definition noTetrominos : Tetrominos.t := Tetrominos.mk 0 [] "" 0 0.

Definition createTetrominos (randIndex : nat) (nextId : Z) : Tetrominos.t :=
  let d := nth randIndex defaultTetrominos noTetrominos in
  Tetrominos.mk (nextId + 1)
    (Tetrominos.cubes d) (Tetrominos.color d) (Tetrominos.x d) (Tetrominos.y d).

Definition initialGameBoard : list Tetrominos.t := [].

(** [initialState] is evaluated once, when the module is loaded; [seed] is
    the index that single [createTetrominos(1)] call drew. *)
Definition initialState (seed : nat) : State.t :=
  State.mk false initialGameBoard (createTetrominos seed 1) 0 0.

(** ** Geometry predicates *)

(** [Array.prototype.reduce] without an initial value: throws on the empty
    array, otherwise folds the tail from the first element. *)
Definition lowestYCube (tetromino : Tetrominos.t) : option Cube.t :=
  match Tetrominos.cubes tetromino with
  | [] => None
  | first :: rest =>
      Some (fold_left
              (fun minCube currentCube =>
                 if Cube.y currentCube + Tetrominos.y tetromino
                    >? Tetrominos.y tetromino + Cube.y minCube
                 then currentCube else minCube)
              rest first)
  end.

Definition isTouchingFloor (tetromino : Tetrominos.t) : option bool :=
  match lowestYCube tetromino with
  | None => None
  | Some c =>
      Some (if Cube.y c + Tetrominos.y tetromino <? Constants.GRID_HEIGHT
            then false else true)
  end.

Definition isInBorder (tetromino : Tetrominos.t) (movement : Action) : bool :=
  forallb
    (fun c =>
       let cubeX := Tetrominos.x tetromino + Cube.x c in
       ((1 <? cubeX) && (cubeX <? Constants.GRID_WIDTH))
       || ((cubeX =? 1) && (ActionField.x movement =? 1))
       || ((cubeX =? Constants.GRID_WIDTH) && (ActionField.x movement =? -1)))
    (Tetrominos.cubes tetromino).

Definition isColliding (s : State.t) (movement : Action) (withMovement : bool)
  : bool :=
  let xMovement := if withMovement then ActionField.x movement else 0 in
  let yMovement := if withMovement then ActionField.y movement else 0 in
  let stackingOffset := if withMovement then 0 else 1 in
  let cur := State.currentTetrominos s in
  existsb
    (fun c =>
       let x := Tetrominos.x cur + Cube.x c + xMovement in
       let y := Tetrominos.y cur + Cube.y c + yMovement in
       existsb
         (fun tetromino =>
            existsb
              (fun boardCube =>
                 (Tetrominos.x tetromino + Cube.x boardCube =? x)
                 && (Tetrominos.y tetromino + Cube.y boardCube
                     =? y + stackingOffset))
              (Tetrominos.cubes tetromino))
         (State.gameBoard s))
    (Tetrominos.cubes cur).

Definition isRowFull (gameBoard : list Tetrominos.t) (rowIndex : Z) : bool :=
  let colCount :=
    fold_left
      (fun accumulator tetromino =>
         let rowBlocks :=
           filter (fun c => Tetrominos.y tetromino + Cube.y c =? rowIndex)
                  (Tetrominos.cubes tetromino) in
         accumulator + Z.of_nat (length rowBlocks))
      gameBoard 0 in
  colCount =? Constants.GRID_WIDTH.

Definition isColFull (gameBoard : list Tetrominos.t) (colIndex : Z) : bool :=
  let colCount :=
    fold_left
      (fun accumulator tetromino =>
         let colBlocks :=
           filter (fun c => Tetrominos.x tetromino + Cube.x c =? colIndex)
                  (Tetrominos.cubes tetromino) in
         accumulator + Z.of_nat (length colBlocks))
      gameBoard 0 in
  colCount >=? Constants.GRID_HEIGHT.

(** [Array.from({ length: n }, (_, index) => index + 1)] *)
Definition arrayFromOne (n : Z) : list Z :=
  map (fun index => Z.of_nat index + 1) (seq 0 (Z.to_nat n)).

Definition isGameEnd (s : State.t) : bool :=
  let gameBoard := State.gameBoard s in
  let gridWidth := Constants.GRID_WIDTH in
  let columns := arrayFromOne gridWidth in
  if existsb (fun col => isColFull gameBoard col) columns then true else false.

(** ** Board mutation *)

Definition getFullRows (s : State.t) : list Z :=
  let rowCount := Constants.GRID_HEIGHT in
  fold_left
    (fun fullRows rowIndex =>
       let newRowIndex := Z.of_nat rowIndex + 1 in
       if isRowFull (State.gameBoard s) newRowIndex
       then fullRows ++ [newRowIndex] else fullRows)
    (seq 0 (Z.to_nat rowCount)) [].

(** [Array.prototype.includes] on numbers *)
Definition includes (l : list Z) (v : Z) : bool := existsb (fun e => e =? v) l.

Definition deleteRow (s : State.t) (fullRows : list Z) : State.t :=
  let updatedGameBoard :=
    map (fun tetromino =>
           let updatedCubes :=
             filter (fun c =>
                       negb (includes fullRows
                               (Tetrominos.y tetromino + Cube.y c)))
                    (Tetrominos.cubes tetromino) in
           Tetrominos.mk (Tetrominos.id tetromino) updatedCubes
             (Tetrominos.color tetromino) (Tetrominos.x tetromino)
             (Tetrominos.y tetromino))
        (State.gameBoard s) in
  let movedTetrominos :=
    map (fun tetromino =>
           Tetrominos.mk (Tetrominos.id tetromino) (Tetrominos.cubes tetromino)
             (Tetrominos.color tetromino) (Tetrominos.x tetromino)
             (Tetrominos.y tetromino
              + Z.of_nat (length (filter (fun rows => rows >? Tetrominos.y tetromino)
                                         fullRows))))
        updatedGameBoard in
  State.mk (State.gameEnd s) movedTetrominos (State.currentTetrominos s)
    (State.score s + 100 * Z.of_nat (length fullRows)) (State.highScore s).

Definition setTetromino (s : State.t) (movement : Action) : option bool :=
  match isTouchingFloor (State.currentTetrominos s) with
  | None => None
  | Some touching =>
      Some (if touching || isColliding s movement false then true else false)
  end.

Definition nextTetromino (rand : nat) (s : State.t) : State.t :=
  State.mk (State.gameEnd s)
    (State.gameBoard s ++ [State.currentTetrominos s])
    (createTetrominos rand (Tetrominos.id (State.currentTetrominos s)))
    (State.score s) (State.highScore s).

(** ** Movement and rotation *)

(** [{x: -cube.y, y: cube.x}].  Negating 0 gives JavaScript's -0, which
    [+], [===], [<] and [>] (all the engine ever applies to a coordinate)
    do not tell from 0; in [Z] the two are one number. *)
Definition rotateCube (c : Cube.t) : Cube.t := Cube.mk (- Cube.y c) (Cube.x c).

Definition withCubes (t : Tetrominos.t) (cs : list Cube.t) : Tetrominos.t :=
  Tetrominos.mk (Tetrominos.id t) cs (Tetrominos.color t)
    (Tetrominos.x t) (Tetrominos.y t).

Definition withCurrent (s : State.t) (t : Tetrominos.t) : State.t :=
  State.mk (State.gameEnd s) (State.gameBoard s) t
    (State.score s) (State.highScore s).

Definition rotateTetrominos (s : State.t) (rotation : Action) : State.t :=
  if negb (Tetrominos.color (State.currentTetrominos s) =? "blue")%string then
    let rotatedTetrominosState :=
      withCurrent s
        (withCubes (State.currentTetrominos s)
           (map rotateCube (Tetrominos.cubes (State.currentTetrominos s)))) in
    if negb (isColliding rotatedTetrominosState rotation false)
       && isInBorder (State.currentTetrominos rotatedTetrominosState) rotation
    then rotatedTetrominosState
    else s
  else s.

Definition moveTetrominos (s : State.t) (action : Action) : option State.t :=
  match action with
  | MoveAction _ _ =>
      if negb (isColliding s action true) then
        match isTouchingFloor (State.currentTetrominos s) with
        | None => None
        | Some touching =>
            let newY := if touching then 0 else ActionField.y action in
            let newX := if isInBorder (State.currentTetrominos s) action
                        then ActionField.x action else 0 in
            let cur := State.currentTetrominos s in
            Some (withCurrent s
                    (Tetrominos.mk (Tetrominos.id cur) (Tetrominos.cubes cur)
                       (Tetrominos.color cur)
                       (Tetrominos.x cur + newX) (Tetrominos.y cur + newY)))
        end
      else Some s
  | _ => Some (rotateTetrominos s action)
  end.

(** ** The transition function

    [seed] fixes the module-level constant [initialState]; [rand] is the
    index [Math.random] yields if this call spawns a piece.  [None] is the
    exception escaping from [lowestYCube]. *)
Definition lockOrMove (rand : nat) (s : State.t) (action : Action)
  : option State.t :=
  match setTetromino s action with
  | None => None
  | Some true => Some (nextTetromino rand s)
  | Some false => moveTetrominos s action
  end.

Definition updateState (seed rand : nat) (s : State.t) (action : Action)
  : option State.t :=
  match action with
  | Restart =>
      let i := initialState seed in
      Some (State.mk (State.gameEnd i) (State.gameBoard i)
              (State.currentTetrominos i) (State.score i)
              (if State.score s >? State.highScore s
               then State.score s else State.highScore s))
  | _ =>
      let isEnd := isGameEnd s in
      if isEnd then
        Some (State.mk true (State.gameBoard s) (State.currentTetrominos s)
                (State.score s) (State.highScore s))
      else
        match lockOrMove rand s action with
        | None => None
        | Some updatedState =>
            let fullRows := getFullRows s in
            if Z.of_nat (length fullRows) >? 0
            then Some (deleteRow updatedState fullRows)
            else Some updatedState
        end
  end.

(** ** Runs of the fold in [main]

    [scan(updateState, initialState)] over the merged action stream; each
    element of a trace pairs the action with the index [Math.random] would
    draw during that call. *)
Fixpoint runFrom (seed : nat) (s : State.t) (trace : list (Action * nat))
  : option State.t :=
  match trace with
  | [] => Some s
  | (a, rand) :: rest =>
      match updateState seed rand s a with
      | None => None
      | Some s' => runFrom seed s' rest
      end
  end.

Definition run (seed : nat) (trace : list (Action * nat)) : option State.t :=
  runFrom seed (initialState seed) trace.

(** The actions the key and timer observables of [main] emit. *)
Definition emitted (a : Action) : bool :=
  match a with
  | MoveAction dx dy =>
      ((dx =? -1) && (dy =? 0)) || ((dx =? 1) && (dy =? 0))
      || ((dx =? 0) && (dy =? 1))
  | RotateAction => true
  | Restart => true
  end.

Definition validDraw (rand : nat) : bool :=
  (rand <? length defaultTetrominos)%nat.

Inductive reachable (seed : nat) : State.t -> Prop :=
| reachable_init : reachable seed (initialState seed)
| reachable_step : forall s a rand s',
    reachable seed s ->
    emitted a = true ->
    validDraw rand = true ->
    updateState seed rand s a = Some s' ->
    reachable seed s'.

(** Absolute grid cells of the locked cubes, piece by piece. *)
Definition pieceCells (t : Tetrominos.t) : list (Z * Z) :=
  map (fun c => (Tetrominos.x t + Cube.x c, Tetrominos.y t + Cube.y c))
      (Tetrominos.cubes t).

Definition boardCells (gameBoard : list Tetrominos.t) : list (Z * Z) :=
  flat_map pieceCells gameBoard.

(** ** Vocabulary of the specification *)

(** Number of locked cubes whose absolute row (resp. column) is the given
    one, counted over the whole board. *)
Definition cubesInRow (gameBoard : list Tetrominos.t) (row : Z) : nat :=
  length (filter (fun cell => snd cell =? row) (boardCells gameBoard)).

Definition cubesInCol (gameBoard : list Tetrominos.t) (col : Z) : nat :=
  length (filter (fun cell => fst cell =? col) (boardCells gameBoard)).

(** Number of elements of [rows] strictly greater than [anchor]. *)
Definition rowsBeyond (rows : list Z) (anchor : Z) : nat :=
  length (filter (fun r => anchor <? r) rows).

(** How one board entry [t'] of [deleteRow s rows] relates to the entry [t]
    it comes from. *)
Definition clearedFrom (rows : list Z) (t t' : Tetrominos.t) : Prop :=
  Tetrominos.id t' = Tetrominos.id t
  /\ Tetrominos.color t' = Tetrominos.color t
  /\ Tetrominos.x t' = Tetrominos.x t
  /\ Tetrominos.cubes t'
     = filter (fun c => negb (includes rows (Tetrominos.y t + Cube.y c)))
              (Tetrominos.cubes t)
  /\ (forall c, In c (Tetrominos.cubes t')
                <-> In c (Tetrominos.cubes t)
                    /\ ~ In (Tetrominos.y t + Cube.y c) rows)
  /\ Tetrominos.y t' = Tetrominos.y t + Z.of_nat (rowsBeyond rows (Tetrominos.y t)).

(** The current piece has a cube on a cell that a locked cube already
    occupies. *)
Definition overlapsBoard (s : State.t) : bool :=
  existsb
    (fun own =>
       existsb (fun locked => (fst locked =? fst own) && (snd locked =? snd own))
               (boardCells (State.gameBoard s)))
    (pieceCells (State.currentTetrominos s)).

(** The state with its current piece rotated, whether or not the engine
    accepts the rotation. *)
Definition rotated (s : State.t) : State.t :=
  withCurrent s
    (withCubes (State.currentTetrominos s)
       (map rotateCube (Tetrominos.cubes (State.currentTetrominos s)))).

(** [s] with [gameEnd] set, every other field kept. *)
Definition frozen (s : State.t) : State.t :=
  State.mk true (State.gameBoard s) (State.currentTetrominos s)
    (State.score s) (State.highScore s).

(** The row-clearing tail of [updateState], for the rows found full on the
    board [s] had before the step. *)
Definition clearLate (s updatedState : State.t) : State.t :=
  match getFullRows s with
  | [] => updatedState
  | _ :: _ => deleteRow updatedState (getFullRows s)
  end.

Definition isRestart (a : Action) : bool :=
  match a with Restart => true | _ => false end.

(** ** Concrete plays *)

Definition down : Action := MoveAction 0 1.
Definition left : Action := MoveAction (-1) 0.

(** A yellow bar is dropped flat onto the floor (columns 5..8 of row 20);
    the pink piece that follows is turned once, pushed two columns to the
    left and dropped to row 19. *)
Definition approachTrace : list (Action * nat) :=
  repeat (down, 3%nat) 21
  ++ [(RotateAction, 0%nat); (left, 0%nat); (left, 0%nat)]
  ++ repeat (down, 0%nat) 19.

(** ... then turned once more, and locked by the next tick. *)
Definition overlapTrace : list (Action * nat) :=
  approachTrace ++ [(RotateAction, 0%nat); (down, 0%nat)].

Definition yellowOnFloor : Tetrominos.t :=
  Tetrominos.mk 2 [cube 0 0; cube 1 0; cube 2 0; cube 3 0] "yellow" 5 20.

Definition besideTheBar : State.t :=
  State.mk false [yellowOnFloor]
    (Tetrominos.mk 3 [cube 0 0; cube 0 (-1); cube 1 (-1); cube 1 (-2)]
       "pink" 3 19)
    0 0.

(** The state [overlapTrace] ends in. *)
Definition pinkOnTheBar : State.t :=
  State.mk false
    [ yellowOnFloor;
      Tetrominos.mk 3 [cube 0 0; cube 1 0; cube 1 1; cube 2 1] "pink" 3 19 ]
    (createTetrominos 0 3) 0 0.

(** Five upright bars stacked in column 5: twenty cubes in one column. *)
Definition towerState : State.t :=
  State.mk false
    (map (fun top =>
            Tetrominos.mk 1 [cube 0 0; cube 0 1; cube 0 2; cube 0 3]
              "yellow" 5 top)
         [17; 13; 9; 5; 1])
    (createTetrominos 0 6) 300 500.

(** Row 20 holds eight cubes and the square resting on the floor in
    columns 9 and 10 is about to supply the last two. *)
Definition almostFullRow : State.t :=
  State.mk false
    [ Tetrominos.mk 2 [cube 0 0; cube 1 0; cube 2 0; cube 3 0] "yellow" 1 20;
      Tetrominos.mk 3 [cube 0 0; cube 1 0; cube 2 0; cube 3 0] "yellow" 5 20 ]
    (Tetrominos.mk 4 [cube 0 0; cube 0 (-1); cube 1 0; cube 1 (-1)] "blue" 9 20)
    0 0.

Definition right : Action := MoveAction 1 0.

(** The same action [n] times in a row (the draw is used by a lock only). *)
Definition times (n : nat) (a : Action) : list (Action * nat) :=
  repeat (a, 0%nat) n.

(** Two flat bars and a square are dropped side by side onto the floor;
    the lock of the square completes row 20 and the tick after it clears
    the row. *)
Definition clearTrace : list (Action * nat) :=
  times 4 left ++ times 20 down ++ [(down, 5%nat)]
  ++ times 20 down ++ [(down, 4%nat)]
  ++ times 4 right ++ times 20 down ++ [(down, 6%nat)]
  ++ [(down, 0%nat)].

Definition afterFirstClear : State.t :=
  State.mk false
    [ Tetrominos.mk 2 [] "yellow" 1 20;
      Tetrominos.mk 3 [] "yellow" 5 20;
      Tetrominos.mk 4 [cube 0 (-1); cube 1 (-1)] "blue" 9 20 ]
    (Tetrominos.mk 5 [cube 0 0; cube 0 (-1); cube 1 (-1); cube (-1) (-1)]
       "purple" 5 1)
    100 0.

(** A play in nine pieces.  A flat bar takes columns 1..4 of row 20 and an
    upright bar column 5; a red piece, a T, three upright bars and a square
    pile up in columns 9 and 10 so that column 9 holds rows 1..19 above the
    empty cell (9, 20) and column 10 holds (10, 20).  The last bar comes
    down column 6 upright, is turned flat on row 19 and ticked onto row 20,
    columns 6..9. *)
Definition brimTrace : list (Action * nat) :=
  times 4 left ++ times 20 down ++ [(down, 5%nat)]
  ++ times 1 RotateAction ++ times 17 down ++ [(down, 2%nat)]
  ++ times 1 RotateAction ++ times 4 right ++ times 18 down ++ [(down, 6%nat)]
  ++ times 3 RotateAction ++ times 5 right ++ times 16 down ++ [(down, 5%nat)]
  ++ times 1 RotateAction ++ times 4 right ++ times 11 down ++ [(down, 5%nat)]
  ++ times 1 RotateAction ++ times 4 right ++ times 7 down ++ [(down, 5%nat)]
  ++ times 1 RotateAction ++ times 4 right ++ times 3 down ++ [(down, 4%nat)]
  ++ times 4 right ++ times 2 down ++ [(down, 5%nat)]
  ++ times 3 RotateAction ++ times 1 right ++ times 19 down
  ++ times 1 RotateAction ++ times 1 down.

Definition flatBar : list Cube.t := [cube 0 0; cube 1 0; cube 2 0; cube 3 0].
Definition uprightBar : list Cube.t := [cube 0 0; cube 0 1; cube 0 2; cube 0 3].

Definition brimBoard : list Tetrominos.t :=
  [ Tetrominos.mk 2 flatBar "yellow" 1 20;
    Tetrominos.mk 3 uprightBar "yellow" 5 17;
    Tetrominos.mk 4 [cube 0 0; cube 0 1; cube 1 1; cube 1 2] "red" 9 18;
    Tetrominos.mk 5 [cube 0 0; cube (-1) 0; cube (-1) (-1); cube (-1) 1]
      "purple" 10 16;
    Tetrominos.mk 6 uprightBar "yellow" 9 11;
    Tetrominos.mk 7 uprightBar "yellow" 9 7;
    Tetrominos.mk 8 uprightBar "yellow" 9 3;
    Tetrominos.mk 9 [cube 0 0; cube 0 (-1); cube 1 0; cube 1 (-1)] "blue" 9 2 ].

(** The state [brimTrace] ends in: the last bar lies on the floor, not yet
    locked. *)
Definition onTheBrim : State.t :=
  State.mk false brimBoard (Tetrominos.mk 10 flatBar "yellow" 6 20) 0 0.

(** ... and the state the next tick makes of it: the bar is locked, row 20
    holds ten cubes and column 9 twenty. *)
Definition overTheBrim : State.t :=
  State.mk false (brimBoard ++ [Tetrominos.mk 10 flatBar "yellow" 6 20])
    (createTetrominos 0 10) 0 0.

(** ** Vocabulary of the further properties *)

(** The piece displaced by [(dx, dy)], as [moveTetrominos] rebuilds it. *)
Definition moved (t : Tetrominos.t) (dx dy : Z) : Tetrominos.t :=
  Tetrominos.mk (Tetrominos.id t) (Tetrominos.cubes t) (Tetrominos.color t)
    (Tetrominos.x t + dx) (Tetrominos.y t + dy).

(** Every cube of the piece stands in one of the columns 1..GRID_WIDTH. *)
Definition insideWalls (t : Tetrominos.t) : Prop :=
  forall cell, In cell (pieceCells t) -> 1 <= fst cell <= Constants.GRID_WIDTH.

(** The ids [2, 3, ..., n + 1]. *)
Definition idsFromTwo (n : nat) : list Z :=
  map (fun i => Z.of_nat i + 2) (seq 0 n).

(** Number of cubes locked on the board. *)
Definition lockedCubes (gameBoard : list Tetrominos.t) : nat :=
  length (boardCells gameBoard).

(** The falling piece has four pairwise distinct cubes and every locked
    piece has at most four, pairwise distinct too. *)
Definition fourDistinct (s : State.t) : Prop :=
  length (Tetrominos.cubes (State.currentTetrominos s)) = 4%nat
  /\ NoDup (Tetrominos.cubes (State.currentTetrominos s))
  /\ Forall (fun t => (length (Tetrominos.cubes t) <= 4)%nat
                      /\ NoDup (Tetrominos.cubes t))
            (State.gameBoard s).

(** Some cube of the current piece has a locked cube in the cell right
    below it. *)
Definition restsOnLocked (s : State.t) : Prop :=
  exists cell,
    In cell (pieceCells (State.currentTetrominos s))
    /\ In (fst cell, snd cell + 1) (boardCells (State.gameBoard s)).

(** * Properties *)

(** ** Counting cubes *)

Lemma filter_map_length {A B : Type} (f : A -> B) (p : B -> bool) (l : list A) :
  length (filter p (map f l)) = length (filter (fun a => p (f a)) l).
Proof.
  induction l as [|a l IH]; simpl; [reflexivity|].
  destruct (p (f a)); simpl; now rewrite IH.
Qed.

Lemma rowCount_fold (gameBoard : list Tetrominos.t) (row acc : Z) :
  fold_left
    (fun accumulator tetromino =>
       accumulator
       + Z.of_nat (length (filter (fun c => Tetrominos.y tetromino + Cube.y c =? row)
                                  (Tetrominos.cubes tetromino))))
    gameBoard acc
  = acc + Z.of_nat (cubesInRow gameBoard row).
Proof.
  unfold cubesInRow, boardCells.
  revert acc; induction gameBoard as [|t b IH]; intros acc; simpl.
  - lia.
  - rewrite IH, filter_app, length_app. unfold pieceCells at 2.
    rewrite filter_map_length. simpl. lia.
Qed.

Lemma colCount_fold (gameBoard : list Tetrominos.t) (col acc : Z) :
  fold_left
    (fun accumulator tetromino =>
       accumulator
       + Z.of_nat (length (filter (fun c => Tetrominos.x tetromino + Cube.x c =? col)
                                  (Tetrominos.cubes tetromino))))
    gameBoard acc
  = acc + Z.of_nat (cubesInCol gameBoard col).
Proof.
  unfold cubesInCol, boardCells.
  revert acc; induction gameBoard as [|t b IH]; intros acc; simpl.
  - lia.
  - rewrite IH, filter_app, length_app. unfold pieceCells at 2.
    rewrite filter_map_length. simpl. lia.
Qed.

Lemma isRowFull_count (gameBoard : list Tetrominos.t) (row : Z) :
  isRowFull gameBoard row = true
  <-> Z.of_nat (cubesInRow gameBoard row) = Constants.GRID_WIDTH.
Proof.
  unfold isRowFull. rewrite rowCount_fold, Z.eqb_eq. simpl. reflexivity.
Qed.

Lemma isColFull_count (gameBoard : list Tetrominos.t) (col : Z) :
  isColFull gameBoard col = true
  <-> Constants.GRID_HEIGHT <= Z.of_nat (cubesInCol gameBoard col).
Proof.
  unfold isColFull. rewrite colCount_fold, Z.geb_le. simpl. reflexivity.
Qed.

Lemma arrayFromOne_In (n col : Z) :
  In col (arrayFromOne n) <-> 1 <= col <= n.
Proof.
  unfold arrayFromOne. rewrite in_map_iff. split.
  - intros (i & <- & Hi). apply in_seq in Hi. lia.
  - intros H. exists (Z.to_nat (col - 1)). split; [lia|].
    apply in_seq. lia.
Qed.

Lemma isGameEnd_columns (s : State.t) :
  isGameEnd s = true
  <-> exists col, 1 <= col <= Constants.GRID_WIDTH
                  /\ isColFull (State.gameBoard s) col = true.
Proof.
  unfold isGameEnd.
  destruct (existsb _ _) eqn:E.
  - split; [intros _|reflexivity].
    apply existsb_exists in E. destruct E as (col & Hin & Hfull).
    exists col. split; [now apply arrayFromOne_In | exact Hfull].
  - split; [discriminate|].
    intros (col & Hin & Hfull).
    assert (existsb (fun c => isColFull (State.gameBoard s) c)
                    (arrayFromOne Constants.GRID_WIDTH) = true) as E'.
    { apply existsb_exists. exists col. split; [now apply arrayFromOne_In | exact Hfull]. }
    congruence.
Qed.

(** C7. [isRowFull] holds exactly when the locked cubes of that absolute
    row, counted over all board pieces, number 10; [isColFull] holds exactly
    when the locked cubes of that absolute column number at least 20; and
    [isGameEnd] holds exactly when some column from 1 to 10 is full. *)
Theorem C7_full_row_column_game_end :
  (forall gameBoard row,
      isRowFull gameBoard row = true <-> cubesInRow gameBoard row = 10%nat)
  /\ (forall gameBoard col,
         isColFull gameBoard col = true <-> (20 <= cubesInCol gameBoard col)%nat)
  /\ (forall s,
         isGameEnd s = true
         <-> exists col, 1 <= col <= 10
                         /\ isColFull (State.gameBoard s) col = true).
Proof.
  split; [|split].
  - intros b r. rewrite isRowFull_count. unfold Constants.GRID_WIDTH. lia.
  - intros b c. rewrite isColFull_count. unfold Constants.GRID_HEIGHT. lia.
  - intros s. apply isGameEnd_columns.
Qed.

(** ** Clearing rows *)

Lemma includes_In (l : list Z) (v : Z) : includes l v = true <-> In v l.
Proof.
  unfold includes. rewrite existsb_exists. split.
  - intros (e & Hin & He). apply Z.eqb_eq in He. now subst.
  - intros Hin. exists v. split; [exact Hin | apply Z.eqb_refl].
Qed.

Lemma rowsBeyond_gtb (rows : list Z) (anchor : Z) :
  length (filter (fun r => r >? anchor) rows) = rowsBeyond rows anchor.
Proof.
  unfold rowsBeyond. f_equal. apply filter_ext. intros r. apply Z.gtb_ltb.
Qed.

(** C6. [deleteRow s rows] keeps one board entry per entry of [s], in the
    same order, also when an entry is left without cubes; entry by entry it
    drops exactly the cubes whose absolute row is in [rows] and adds to the
    anchor row the number of elements of [rows] strictly greater than it;
    the score grows by 100 for each element of [rows]; the current piece,
    [highScore] and [gameEnd] are kept. *)
Theorem C6_deleteRow_effect (s : State.t) (rows : list Z) :
  Forall2 (clearedFrom rows)
          (State.gameBoard s) (State.gameBoard (deleteRow s rows))
  /\ length (State.gameBoard (deleteRow s rows)) = length (State.gameBoard s)
  /\ State.score (deleteRow s rows)
     = State.score s + 100 * Z.of_nat (length rows)
  /\ State.currentTetrominos (deleteRow s rows) = State.currentTetrominos s
  /\ State.highScore (deleteRow s rows) = State.highScore s
  /\ State.gameEnd (deleteRow s rows) = State.gameEnd s.
Proof.
  split; [|split; [|repeat split]].
  - unfold deleteRow; simpl.
    induction (State.gameBoard s) as [|t b IH]; simpl; constructor; [|exact IH].
    unfold clearedFrom; simpl.
    split; [reflexivity|]. split; [reflexivity|]. split; [reflexivity|].
    split; [reflexivity|]. split; [|now rewrite rowsBeyond_gtb].
    intros c. rewrite filter_In, negb_true_iff.
    split; intros [Hin Hrow]; (split; [exact Hin|]).
    + intros Hmem. apply includes_In in Hmem. congruence.
    + destruct (includes rows _) eqn:E; [|reflexivity].
      apply includes_In in E. contradiction.
  - unfold deleteRow; simpl. now rewrite !length_map.
Qed.

(** ** Rotation *)

Lemma rotateCube_four (c : Cube.t) :
  rotateCube (rotateCube (rotateCube (rotateCube c))) = c.
Proof.
  destruct c as [cx cy]. unfold rotateCube; simpl.
  now rewrite !Z.opp_involutive.
Qed.

Lemma rotateTetrominos_blue (s : State.t) (rotation : Action) :
  Tetrominos.color (State.currentTetrominos s) = "blue"%string ->
  rotateTetrominos s rotation = s.
Proof.
  intros Hblue. unfold rotateTetrominos. now rewrite Hblue.
Qed.

(** What the guard of [rotateTetrominos] tests for any other piece. *)
Lemma rotateTetrominos_guard (s : State.t) (rotation : Action) :
  Tetrominos.color (State.currentTetrominos s) <> "blue"%string ->
  rotateTetrominos s rotation
  = if negb (isColliding (rotated s) rotation false)
       && isInBorder (State.currentTetrominos (rotated s)) rotation
    then rotated s else s.
Proof.
  intros Hcol. unfold rotateTetrominos.
  destruct (String.eqb_spec (Tetrominos.color (State.currentTetrominos s)) "blue");
    [contradiction|reflexivity].
Qed.

(** C8. The rotation transform applied four times gives back the cube
    sequence it started from, and [rotateTetrominos] (hence a Rotate action
    handed to [moveTetrominos]) returns the state as it is when the current
    piece is the blue square. *)
Theorem C8_rotation_order_four_and_square :
  (forall cs : list Cube.t,
      map rotateCube (map rotateCube (map rotateCube (map rotateCube cs))) = cs)
  /\ (forall s rotation,
         Tetrominos.color (State.currentTetrominos s) = "blue"%string ->
         rotateTetrominos s rotation = s
         /\ moveTetrominos s RotateAction = Some s).
Proof.
  split.
  - intros cs. rewrite !map_map.
    induction cs as [|c cs IH]; simpl; [reflexivity|].
    now rewrite rotateCube_four, IH.
  - intros s rotation Hblue. split.
    + now apply rotateTetrominos_blue.
    + simpl. now rewrite rotateTetrominos_blue.
Qed.

Lemma C8_witness :
  Tetrominos.color (State.currentTetrominos (initialState 4)) = "blue"%string
  /\ rotateTetrominos (initialState 4) RotateAction = initialState 4
  /\ moveTetrominos (initialState 4) RotateAction = Some (initialState 4).
Proof.
  split; [reflexivity|].
  apply (proj2 C8_rotation_order_four_and_square (initialState 4) RotateAction).
  reflexivity.
Defined.

(** ** The transition function *)

Lemma Some_eq {A : Type} (a b : A) : Some a = Some b -> a = b.
Proof. now intros [= ->]. Qed.

Lemma rotateTetrominos_frame (s : State.t) (rotation : Action) :
  rotateTetrominos s rotation = s \/ rotateTetrominos s rotation = rotated s.
Proof.
  unfold rotateTetrominos, rotated.
  destruct (negb _); [|now left].
  destruct (_ && _); [now right | now left].
Qed.

(** [moveTetrominos] touches the current piece only. *)
Lemma moveTetrominos_frame (s u : State.t) (action : Action) :
  moveTetrominos s action = Some u ->
  State.gameBoard u = State.gameBoard s
  /\ State.score u = State.score s
  /\ State.highScore u = State.highScore s
  /\ State.gameEnd u = State.gameEnd s.
Proof.
  destruct action as [dx dy| |]; simpl.
  - destruct (negb _).
    + destruct (isTouchingFloor _); [|discriminate].
      intros [= <-]. simpl. tauto.
    + intros [= <-]. tauto.
  - intros [= <-].
    destruct (rotateTetrominos_frame s RotateAction) as [-> | ->]; simpl; tauto.
  - intros [= <-].
    destruct (rotateTetrominos_frame s Restart) as [-> | ->]; simpl; tauto.
Qed.

(** The lock-or-move step never clears anything: the board is kept or gains
    the current piece at its end, and the counters are kept. *)
Lemma lockOrMove_frame (rand : nat) (s u : State.t) (action : Action) :
  lockOrMove rand s action = Some u ->
  (State.gameBoard u = State.gameBoard s
   \/ State.gameBoard u = State.gameBoard s ++ [State.currentTetrominos s])
  /\ State.score u = State.score s
  /\ State.highScore u = State.highScore s
  /\ State.gameEnd u = State.gameEnd s.
Proof.
  unfold lockOrMove.
  destruct (setTetromino s action) as [[|]|]; [| |discriminate].
  - intros [= <-]. simpl. tauto.
  - intros H. apply moveTetrominos_frame in H. tauto.
Qed.

Lemma length_positive_gtb {A : Type} (l : list A) :
  (Z.of_nat (length l) >? 0) = match l with [] => false | _ :: _ => true end.
Proof. destruct l; simpl; [reflexivity|]. now rewrite Z.gtb_ltb. Qed.

(** [updateState] on a board that is not over, for a non-Restart action. *)
Lemma updateState_playing (seed rand : nat) (s : State.t) (action : Action) :
  isRestart action = false ->
  isGameEnd s = false ->
  updateState seed rand s action
  = option_map (clearLate s) (lockOrMove rand s action).
Proof.
  intros Ha Hend.
  assert (updateState seed rand s action
          = if isGameEnd s then Some (frozen s)
            else match lockOrMove rand s action with
                 | None => None
                 | Some updatedState =>
                     if Z.of_nat (length (getFullRows s)) >? 0
                     then Some (deleteRow updatedState (getFullRows s))
                     else Some updatedState
                 end) as ->.
  { destruct action as [dx dy| |]; [reflexivity|reflexivity|discriminate Ha]. }
  rewrite Hend, length_positive_gtb. unfold clearLate.
  destruct (lockOrMove rand s action) as [u|]; [|reflexivity].
  now destruct (getFullRows s).
Qed.

Lemma updateState_over (seed rand : nat) (s : State.t) (action : Action) :
  isRestart action = false ->
  isGameEnd s = true ->
  updateState seed rand s action = Some (frozen s).
Proof.
  intros Ha Hend.
  destruct action as [dx dy| |]; [| |discriminate Ha];
    unfold updateState, frozen; now rewrite Hend.
Qed.

Lemma updateState_restart (seed rand : nat) (s : State.t) :
  updateState seed rand s Restart
  = Some (State.mk false [] (createTetrominos seed 1) 0
            (Z.max (State.score s) (State.highScore s))).
Proof.
  simpl. do 2 f_equal.
  rewrite Z.gtb_ltb. destruct (Z.ltb_spec (State.highScore s) (State.score s)); lia.
Qed.

Lemma frozen_over (s : State.t) :
  isGameEnd s = true -> isGameEnd (frozen s) = true.
Proof. intros H. exact H. Qed.

Lemma runFrom_over (seed : nat) (trace : list (Action * nat)) :
  forall s,
    isGameEnd s = true ->
    forallb (fun step => negb (isRestart (fst step))) trace = true ->
    runFrom seed s trace
    = Some (match trace with [] => s | _ :: _ => frozen s end).
Proof.
  induction trace as [|[a rand] rest IH]; intros s Hend Hall; simpl in *.
  - reflexivity.
  - apply andb_true_iff in Hall. destruct Hall as [Ha Hrest].
    apply negb_true_iff in Ha.
    rewrite (updateState_over seed rand s a Ha Hend).
    rewrite (IH (frozen s) (frozen_over s Hend) Hrest).
    now destruct rest.
Qed.

(** C3. Once [isGameEnd] holds, a non-Restart action returns the state with
    [gameEnd] set and every other field as it was; and so does any
    non-empty run of non-Restart actions: the board, the current piece and
    both counters stay frozen. *)
Theorem C3_game_over_is_terminal (seed : nat) (s : State.t) :
  isGameEnd s = true ->
  (forall action rand,
      isRestart action = false ->
      updateState seed rand s action
      = Some (State.mk true (State.gameBoard s) (State.currentTetrominos s)
                (State.score s) (State.highScore s)))
  /\ (forall step trace,
         forallb (fun st => negb (isRestart (fst st))) (step :: trace) = true ->
         exists s',
           runFrom seed s (step :: trace) = Some s'
           /\ State.gameEnd s' = true
           /\ State.gameBoard s' = State.gameBoard s
           /\ State.currentTetrominos s' = State.currentTetrominos s
           /\ State.score s' = State.score s
           /\ State.highScore s' = State.highScore s).
Proof.
  intros Hend. split.
  - intros action rand Ha. now apply updateState_over.
  - intros step trace Hall. exists (frozen s).
    rewrite (runFrom_over seed (step :: trace) s Hend Hall).
    simpl. tauto.
Qed.

Lemma C3_witness :
  isGameEnd towerState = true
  /\ updateState 0 0 towerState down = Some (frozen towerState)
  /\ exists s',
       runFrom 0 towerState [(down, 1%nat); (left, 2%nat); (RotateAction, 3%nat)]
       = Some s'
       /\ State.gameEnd s' = true
       /\ State.gameBoard s' = State.gameBoard towerState
       /\ State.currentTetrominos s' = State.currentTetrominos towerState
       /\ State.score s' = State.score towerState
       /\ State.highScore s' = State.highScore towerState.
Proof.
  assert (isGameEnd towerState = true) as Hend by (vm_compute; reflexivity).
  split; [exact Hend|].
  destruct (C3_game_over_is_terminal 0 towerState Hend) as [Hone Hmany].
  split.
  - apply Hone. reflexivity.
  - apply Hmany. reflexivity.
Defined.

(** C4. Restart returns [initialState] with [highScore] replaced by the
    larger of the old score and the old [highScore] (so the score is 0, the
    board empty and [gameEnd] false); and no transition lowers
    [highScore]. *)
Theorem C4_restart_and_highScore (seed : nat) :
  (forall rand s,
      updateState seed rand s Restart
      = Some (State.mk (State.gameEnd (initialState seed))
                (State.gameBoard (initialState seed))
                (State.currentTetrominos (initialState seed))
                (State.score (initialState seed))
                (Z.max (State.score s) (State.highScore s)))
      /\ State.score (initialState seed) = 0
      /\ State.gameBoard (initialState seed) = []
      /\ State.gameEnd (initialState seed) = false)
  /\ (forall rand s action s',
         updateState seed rand s action = Some s' ->
         State.highScore s <= State.highScore s').
Proof.
  split.
  - intros rand s. rewrite updateState_restart. repeat split.
  - intros rand s action s' H.
    destruct (isRestart action) eqn:Ha.
    + destruct action; try discriminate.
      rewrite updateState_restart in H. apply Some_eq in H. subst s'. simpl. lia.
    + destruct (isGameEnd s) eqn:Hend.
      * rewrite (updateState_over _ _ _ _ Ha Hend) in H.
        injection H as <-. simpl. lia.
      * rewrite (updateState_playing _ _ _ _ Ha Hend) in H.
        destruct (lockOrMove rand s action) as [u|] eqn:Hu; [|discriminate].
        cbn [option_map] in H. apply Some_eq in H. subst s'.
        apply lockOrMove_frame in Hu. destruct Hu as (_ & _ & Hhigh & _).
        unfold clearLate. destruct (getFullRows s); simpl; lia.
Qed.

Lemma C4_witness :
  updateState 0 0 towerState Restart
  = Some (State.mk false [] (createTetrominos 0 1) 0 500)
  /\ State.highScore towerState
     <= State.highScore (State.mk false [] (createTetrominos 0 1) 0 500).
Proof.
  assert (updateState 0 0 towerState Restart
          = Some (State.mk false [] (createTetrominos 0 1) 0 500)) as H
      by reflexivity.
  split; [exact H|].
  exact (proj2 (C4_restart_and_highScore 0) 0%nat towerState Restart _ H).
Defined.

(** C5, as the code has it.  While the game is not over, a non-Restart
    action first locks or moves, giving an updated state; the full rows are
    those of the board the step started from, and [deleteRow] is applied to
    the updated state exactly when there are some.  So when the old board
    has no full row the updated state is returned uncleared, whatever rows
    the lock has just completed.  Those rows are cleared by the action that
    follows when that action is not Restart and no column of the updated
    board is full; when a column of the updated board is full, the action
    that follows only sets [gameEnd] and clears nothing. *)
Theorem C5_rows_checked_on_old_board
    (seed rand : nat) (s : State.t) (action : Action) :
  isGameEnd s = false ->
  isRestart action = false ->
  updateState seed rand s action
  = match setTetromino s action with
    | None => None
    | Some true => Some (clearLate s (nextTetromino rand s))
    | Some false => option_map (clearLate s) (moveTetrominos s action)
    end
  /\ (forall u,
         lockOrMove rand s action = Some u ->
         (getFullRows s <> [] ->
          updateState seed rand s action = Some (deleteRow u (getFullRows s)))
         /\ (getFullRows s = [] ->
             updateState seed rand s action = Some u
             /\ (isGameEnd u = false ->
                 getFullRows u <> [] ->
                 forall action' rand',
                   isRestart action' = false ->
                   updateState seed rand' u action'
                   = option_map (fun v => deleteRow v (getFullRows u))
                                (lockOrMove rand' u action'))
             /\ (isGameEnd u = true ->
                 forall action' rand',
                   isRestart action' = false ->
                   updateState seed rand' u action' = Some (frozen u)))).
Proof.
  intros Hend Ha. rewrite (updateState_playing seed rand s action Ha Hend).
  split.
  - unfold lockOrMove. now destruct (setTetromino s action) as [[|]|].
  - intros u Hu. rewrite Hu. simpl. unfold clearLate. split.
    + intros Hrows. now destruct (getFullRows s).
    + intros Hrows. rewrite Hrows. split; [reflexivity|]. split.
      * intros Hend' Hrows' action' rand' Ha'.
        rewrite (updateState_playing seed rand' u action' Ha' Hend').
        unfold clearLate. destruct (getFullRows u); [contradiction|reflexivity].
      * intros Hover action' rand' Ha'. now apply updateState_over.
Qed.

Lemma C5_witness :
  isGameEnd almostFullRow = false
  /\ getFullRows almostFullRow = []
  /\ getFullRows (nextTetromino 0 almostFullRow) = [20]
  /\ updateState 0 0 almostFullRow down = Some (nextTetromino 0 almostFullRow)
  /\ updateState 0 0 (nextTetromino 0 almostFullRow) down
     = option_map (fun v => deleteRow v [20])
                  (lockOrMove 0 (nextTetromino 0 almostFullRow) down).
Proof.
  assert (isGameEnd almostFullRow = false) as Hend by reflexivity.
  assert (getFullRows almostFullRow = []) as Hrows by reflexivity.
  assert (getFullRows (nextTetromino 0 almostFullRow) = [20]) as Hrows'
      by reflexivity.
  assert (lockOrMove 0 almostFullRow down = Some (nextTetromino 0 almostFullRow))
    as Hlock by reflexivity.
  destruct (C5_rows_checked_on_old_board 0 0 almostFullRow down Hend eq_refl)
    as [_ Hlate].
  destruct (Hlate _ Hlock) as [_ Hnone].
  destruct (Hnone Hrows) as (Hstep & Hnext & _).
  split; [exact Hend|]. split; [exact Hrows|]. split; [exact Hrows'|].
  split; [exact Hstep|].
  rewrite <- Hrows'. apply Hnext.
  - reflexivity.
  - rewrite Hrows'. discriminate.
  - reflexivity.
Defined.

(** C9. While the game is not over, the piece neither touches the floor nor
    trips the one-row-below probe, and the board has no full row, a Move or
    Rotate action returns a state whose board, score, [highScore] and
    [gameEnd] are those of the state it was given. *)
Theorem C9_move_rotate_frame
    (seed rand : nat) (s : State.t) (action : Action) :
  isGameEnd s = false ->
  isTouchingFloor (State.currentTetrominos s) = Some false ->
  isColliding s action false = false ->
  getFullRows s = [] ->
  isRestart action = false ->
  exists s',
    updateState seed rand s action = Some s'
    /\ State.gameBoard s' = State.gameBoard s
    /\ State.score s' = State.score s
    /\ State.highScore s' = State.highScore s
    /\ State.gameEnd s' = State.gameEnd s.
Proof.
  intros Hend Hfloor Hprobe Hrows Ha.
  rewrite (updateState_playing seed rand s action Ha Hend).
  unfold clearLate, lockOrMove, setTetromino.
  rewrite Hrows, Hfloor, Hprobe. simpl.
  assert (exists u, moveTetrominos s action = Some u) as [u Hu].
  { destruct action as [dx dy| |]; simpl; try (eexists; reflexivity).
    rewrite Hfloor. destruct (negb _); eexists; reflexivity. }
  rewrite Hu. exists u. split; [reflexivity|].
  now apply moveTetrominos_frame in Hu.
Qed.

Lemma C9_witness :
  exists s',
    updateState 0 0 (initialState 0) down = Some s'
    /\ State.gameBoard s' = State.gameBoard (initialState 0)
    /\ State.score s' = State.score (initialState 0)
    /\ State.highScore s' = State.highScore (initialState 0)
    /\ State.gameEnd s' = State.gameEnd (initialState 0).
Proof.
  apply (C9_move_rotate_frame 0 0 (initialState 0) down); reflexivity.
Defined.

(** ** Restart *)

(** Along a play both counters stay non-negative. *)
Lemma reachable_counters (seed : nat) (s : State.t) :
  reachable seed s -> 0 <= State.score s /\ 0 <= State.highScore s.
Proof.
  induction 1 as [|s a rand s' Hreach IH Hem Hdraw Hstep].
  - simpl. lia.
  - destruct (isRestart a) eqn:Ha.
    + destruct a; try discriminate.
      rewrite updateState_restart in Hstep. apply Some_eq in Hstep. subst s'.
      simpl. lia.
    + destruct (isGameEnd s) eqn:Hend.
      * rewrite (updateState_over _ _ _ _ Ha Hend) in Hstep.
        injection Hstep as <-. exact IH.
      * rewrite (updateState_playing _ _ _ _ Ha Hend) in Hstep.
        destruct (lockOrMove rand s a) as [u|] eqn:Hu; [|discriminate].
        cbn [option_map] in Hstep. apply Some_eq in Hstep. subst s'.
        apply lockOrMove_frame in Hu. destruct Hu as (_ & Hscore & Hhigh & _).
        unfold clearLate. destruct (getFullRows s); simpl; lia.
Qed.

(** Restart ignores the draw of the call, and a second Restart in a row
    changes nothing when one of the counters restarted from is not
    negative. *)
Lemma restart_twice (seed rand rand' : nat) (s : State.t) :
  0 <= State.score s \/ 0 <= State.highScore s ->
  runFrom seed s [(Restart, rand); (Restart, rand')]
  = runFrom seed s [(Restart, rand)].
Proof.
  intros Hpos. simpl runFrom. do 2 f_equal.
  rewrite !Z.gtb_ltb.
  destruct (Z.ltb_spec (State.highScore s) (State.score s)) as [Hlt|Hle];
    simpl.
  - destruct (Z.ltb_spec (State.score s) 0); [lia|reflexivity].
  - destruct (Z.ltb_spec (State.highScore s) 0); [lia|reflexivity].
Qed.

(** ** Overlapping cubes *)

Lemma runFrom_reachable (seed : nat) (trace : list (Action * nat)) :
  forall s s',
    reachable seed s ->
    forallb (fun step => emitted (fst step) && validDraw (snd step)) trace = true ->
    runFrom seed s trace = Some s' ->
    reachable seed s'.
Proof.
  induction trace as [|[a rand] rest IH]; intros s s' Hreach Hall Hrun;
    simpl in *.
  - now injection Hrun as <-.
  - apply andb_true_iff in Hall. destruct Hall as [Hstep Hrest].
    apply andb_true_iff in Hstep. destruct Hstep as [Hem Hdraw].
    destruct (updateState seed rand s a) as [u|] eqn:Hu; [|discriminate].
    apply (IH u s'); [|exact Hrest|exact Hrun].
    now apply (reachable_step seed s a rand u).
Qed.

Lemma run_reachable (seed : nat) (trace : list (Action * nat)) (s : State.t) :
  forallb (fun step => emitted (fst step) && validDraw (snd step)) trace = true ->
  run seed trace = Some s ->
  reachable seed s.
Proof.
  intros Hall Hrun.
  apply (runFrom_reachable seed trace (initialState seed) s);
    [constructor | exact Hall | exact Hrun].
Qed.

Lemma approachTrace_run : run 5 approachTrace = Some besideTheBar.
Proof. vm_compute. reflexivity. Qed.

Lemma approachTrace_playable :
  forallb (fun step => emitted (fst step) && validDraw (snd step)) approachTrace
  = true.
Proof. vm_compute. reflexivity. Qed.

Lemma overlapTrace_run : run 5 overlapTrace = Some pinkOnTheBar.
Proof. vm_compute. reflexivity. Qed.

Lemma overlapTrace_playable :
  forallb (fun step => emitted (fst step) && validDraw (snd step)) overlapTrace
  = true.
Proof. vm_compute. reflexivity. Qed.

(** C2, where the code departs from it.  In the reachable state
    [besideTheBar] the pink piece stands in columns 3 and 4 next to the
    locked bar.  Its rotated form has a cube on cell (5, 20), which the bar
    occupies, and lies within the border; [rotateTetrominos] still makes the
    rotated form the current piece, because [isColliding] is called with
    [withMovement = false] and so looks one row below the rotated cubes
    instead of at them. *)
Theorem C2_rotation_accepted_onto_locked_cube :
  reachable 5 besideTheBar
  /\ Tetrominos.color (State.currentTetrominos besideTheBar) <> "blue"%string
  /\ In (5, 20) (pieceCells (State.currentTetrominos (rotated besideTheBar)))
  /\ In (5, 20) (boardCells (State.gameBoard besideTheBar))
  /\ overlapsBoard (rotated besideTheBar) = true
  /\ isInBorder (State.currentTetrominos (rotated besideTheBar)) RotateAction = true
  /\ isColliding (rotated besideTheBar) RotateAction false = false
  /\ rotateTetrominos besideTheBar RotateAction = rotated besideTheBar
  /\ updateState 5 0 besideTheBar RotateAction = Some (rotated besideTheBar)
  /\ rotated besideTheBar <> besideTheBar.
Proof.
  split; [exact (run_reachable 5 approachTrace besideTheBar
                   approachTrace_playable approachTrace_run)|].
  split; [vm_compute; discriminate|].
  split; [vm_compute; tauto|].
  split; [vm_compute; tauto|].
  split; [vm_compute; reflexivity|].
  split; [vm_compute; reflexivity|].
  split; [vm_compute; reflexivity|].
  split; [vm_compute; reflexivity|].
  split; [vm_compute; reflexivity|].
  vm_compute. discriminate.
Qed.

(** C1, where the code departs from it.  The play [overlapTrace] (key and
    timer actions only, every draw a catalogue index) ends in a state whose
    board holds two locked cubes on cell (5, 20): the last cube of the pink
    piece sits on the first cube of the bar. *)
Theorem C1_reachable_board_with_shared_cell :
  run 5 overlapTrace = Some pinkOnTheBar
  /\ reachable 5 pinkOnTheBar
  /\ boardCells (State.gameBoard pinkOnTheBar)
     = [(5, 20); (6, 20); (7, 20); (8, 20); (3, 19); (4, 19); (4, 20); (5, 20)]
  /\ ~ NoDup (boardCells (State.gameBoard pinkOnTheBar)).
Proof.
  assert (boardCells (State.gameBoard pinkOnTheBar)
          = [(5, 20); (6, 20); (7, 20); (8, 20); (3, 19); (4, 19); (4, 20); (5, 20)])
    as Hcells by (vm_compute; reflexivity).
  split; [exact overlapTrace_run|].
  split; [exact (run_reachable 5 overlapTrace pinkOnTheBar
                   overlapTrace_playable overlapTrace_run)|].
  split; [exact Hcells|].
  rewrite Hcells. intros Hnodup.
  apply NoDup_cons_iff in Hnodup. destruct Hnodup as [Hnotin _].
  apply Hnotin. simpl. tauto.
Qed.

(** ** Plays that clear a row, or end on one *)

Lemma clearTrace_run : run 5 clearTrace = Some afterFirstClear.
Proof. vm_compute. reflexivity. Qed.

Lemma clearTrace_playable :
  forallb (fun step => emitted (fst step) && validDraw (snd step)) clearTrace
  = true.
Proof. vm_compute. reflexivity. Qed.

Lemma brimTrace_run : run 5 brimTrace = Some onTheBrim.
Proof. vm_compute. reflexivity. Qed.

Lemma brimTrace_playable :
  forallb (fun step => emitted (fst step) && validDraw (snd step)) brimTrace
  = true.
Proof. vm_compute. reflexivity. Qed.

Lemma onTheBrim_step : updateState 5 0 onTheBrim down = Some overTheBrim.
Proof. vm_compute. reflexivity. Qed.

Lemma overTheBrim_reachable : reachable 5 overTheBrim.
Proof.
  apply (reachable_step 5 onTheBrim down 0 overTheBrim).
  - exact (run_reachable 5 brimTrace onTheBrim brimTrace_playable brimTrace_run).
  - reflexivity.
  - reflexivity.
  - exact onTheBrim_step.
Qed.

(** C10. Restart is deterministic and consumes no randomness: whatever the
    draw of the call, it returns the piece [initialState] was built with,
    whose id is 2.  It is idempotent on every state of a play: a second
    Restart in a row returns what the first returned. *)
Theorem C10_restart_idempotent
    (seed rand rand' : nat) (s : State.t) :
  reachable seed s ->
  runFrom seed s [(Restart, rand); (Restart, rand')]
  = runFrom seed s [(Restart, rand)]
  /\ updateState seed rand s Restart = updateState seed rand' s Restart
  /\ exists s',
       updateState seed rand s Restart = Some s'
       /\ State.currentTetrominos s' = State.currentTetrominos (initialState seed)
       /\ Tetrominos.id (State.currentTetrominos s') = 2.
Proof.
  intros Hreach. split; [|split].
  - apply restart_twice. left. exact (proj1 (reachable_counters seed s Hreach)).
  - reflexivity.
  - eexists. split; [reflexivity|]. split; reflexivity.
Qed.

Lemma C10_witness :
  reachable 5 afterFirstClear
  /\ State.score afterFirstClear = 100
  /\ runFrom 5 afterFirstClear [(Restart, 1%nat); (Restart, 6%nat)]
     = runFrom 5 afterFirstClear [(Restart, 1%nat)].
Proof.
  assert (reachable 5 afterFirstClear) as Hreach
      by exact (run_reachable 5 clearTrace afterFirstClear
                  clearTrace_playable clearTrace_run).
  split; [exact Hreach|]. split; [reflexivity|].
  exact (proj1 (C10_restart_idempotent 5 1 6 afterFirstClear Hreach)).
Defined.

(** C5 does not hold as first stated: a row completed by a lock is not
    always cleared by the action that follows.  In the reachable state
    [onTheBrim] no row is full and no column either; the tick locks the bar,
    which completes row 20 and brings column 9 to twenty cubes.  The board
    is then over: the next tick does not apply [deleteRow], and along every
    run of non-Restart actions row 20 stays full and the score stays 0. *)
Lemma C5_counterexample :
  reachable 5 onTheBrim
  /\ isGameEnd onTheBrim = false
  /\ getFullRows onTheBrim = []
  /\ lockOrMove 0 onTheBrim down = Some overTheBrim
  /\ updateState 5 0 onTheBrim down = Some overTheBrim
  /\ getFullRows overTheBrim = [20]
  /\ updateState 5 0 overTheBrim down = Some (frozen overTheBrim)
  /\ updateState 5 0 overTheBrim down
     <> option_map (fun v => deleteRow v (getFullRows overTheBrim))
                   (lockOrMove 0 overTheBrim down)
  /\ forall step trace,
       forallb (fun st => negb (isRestart (fst st))) (step :: trace) = true ->
       exists s',
         runFrom 5 overTheBrim (step :: trace) = Some s'
         /\ getFullRows s' = [20]
         /\ State.score s' = 0.
Proof.
  split; [exact (run_reachable 5 brimTrace onTheBrim
                   brimTrace_playable brimTrace_run)|].
  split; [vm_compute; reflexivity|].
  split; [vm_compute; reflexivity|].
  split; [vm_compute; reflexivity|].
  split; [exact onTheBrim_step|].
  split; [vm_compute; reflexivity|].
  split; [vm_compute; reflexivity|].
  split; [vm_compute; discriminate|].
  intros step trace Hall. exists (frozen overTheBrim).
  assert (isGameEnd overTheBrim = true) as Hover by (vm_compute; reflexivity).
  rewrite (runFrom_over 5 (step :: trace) overTheBrim Hover Hall).
  split; [reflexivity|]. split; [vm_compute; reflexivity | reflexivity].
Qed.

(** * Further properties of the engine *)

(** ** The lowest cube and the floor *)

Lemma lowestYCube_fold (ty : Z) (rest : list Cube.t) :
  forall (before : list Cube.t) (best : Cube.t) (ties : list Cube.t),
    (forall c, In c before -> Cube.y c < Cube.y best) ->
    (forall c, In c ties -> Cube.y c <= Cube.y best) ->
    exists before' ties',
      before ++ best :: ties ++ rest
      = before'
        ++ fold_left
             (fun minCube currentCube =>
                if Cube.y currentCube + ty >? ty + Cube.y minCube
                then currentCube else minCube)
             rest best
           :: ties'
      /\ (forall c, In c before'
                    -> Cube.y c
                       < Cube.y (fold_left
                                   (fun minCube currentCube =>
                                      if Cube.y currentCube + ty >? ty + Cube.y minCube
                                      then currentCube else minCube)
                                   rest best))
      /\ (forall c, In c ties'
                    -> Cube.y c
                       <= Cube.y (fold_left
                                    (fun minCube currentCube =>
                                       if Cube.y currentCube + ty >? ty + Cube.y minCube
                                       then currentCube else minCube)
                                    rest best)).
Proof.
  induction rest as [|a rest IH]; intros before best ties Hbefore Hties; simpl.
  - exists before, ties. rewrite app_nil_r. auto.
  - rewrite Z.gtb_ltb. destruct (Z.ltb_spec (ty + Cube.y best) (Cube.y a + ty)) as [Hlt|Hle].
    + destruct (IH (before ++ best :: ties) a []) as (b' & t' & Heq & Hb & Ht).
      * intros c Hin. apply in_app_or in Hin. destruct Hin as [Hin|[<-|Hin]].
        -- specialize (Hbefore c Hin). lia.
        -- lia.
        -- specialize (Hties c Hin). lia.
      * intros c [].
      * exists b', t'. split; [|auto].
        rewrite <- Heq. simpl. rewrite <- app_assoc. reflexivity.
    + destruct (IH before best (ties ++ [a])) as (b' & t' & Heq & Hb & Ht).
      * exact Hbefore.
      * intros c Hin. apply in_app_or in Hin. destruct Hin as [Hin|[<-|[]]].
        -- now apply Hties.
        -- lia.
      * exists b', t'. split; [|auto].
        rewrite <- Heq. rewrite <- app_assoc. reflexivity.
Qed.

Lemma lowestYCube_split (t : Tetrominos.t) (c : Cube.t) :
  lowestYCube t = Some c ->
  exists before after,
    Tetrominos.cubes t = before ++ c :: after
    /\ (forall c', In c' before -> Cube.y c' < Cube.y c)
    /\ (forall c', In c' after -> Cube.y c' <= Cube.y c).
Proof.
  unfold lowestYCube. destruct (Tetrominos.cubes t) as [|first rest]; [discriminate|].
  intros H. apply Some_eq in H. subst c.
  destruct (lowestYCube_fold (Tetrominos.y t) rest [] first [])
    as (b & a & Heq & Hb & Ha); [intros c [] | intros c [] |].
  exists b, a. simpl in Heq. auto.
Qed.

Lemma lowestYCube_max (t : Tetrominos.t) (c : Cube.t) :
  lowestYCube t = Some c ->
  In c (Tetrominos.cubes t)
  /\ forall c', In c' (Tetrominos.cubes t) -> Cube.y c' <= Cube.y c.
Proof.
  intros H. destruct (lowestYCube_split t c H) as (b & a & Heq & Hb & Ha).
  rewrite Heq. split.
  - apply in_or_app. right. now left.
  - intros c' Hin. apply in_app_or in Hin. destruct Hin as [Hin|[<-|Hin]].
    + specialize (Hb c' Hin). lia.
    + lia.
    + now apply Ha.
Qed.

Lemma lowestYCube_None (t : Tetrominos.t) :
  lowestYCube t = None <-> Tetrominos.cubes t = [].
Proof.
  unfold lowestYCube. destruct (Tetrominos.cubes t); split; congruence.
Qed.

(** X1. [lowestYCube] fails exactly on a piece without cubes; otherwise it
    returns the first cube, in array order, among those of greatest [y]:
    every cube before it is strictly higher up, every cube after it is not
    lower down. *)
Theorem X1_lowestYCube_first_maximum (t : Tetrominos.t) :
  (lowestYCube t = None <-> Tetrominos.cubes t = [])
  /\ (forall c,
         lowestYCube t = Some c ->
         exists before after,
           Tetrominos.cubes t = before ++ c :: after
           /\ (forall c', In c' before -> Cube.y c' < Cube.y c)
           /\ (forall c', In c' after -> Cube.y c' <= Cube.y c)).
Proof.
  split; [apply lowestYCube_None | apply lowestYCube_split].
Qed.

Lemma X1_witness :
  lowestYCube (Tetrominos.mk 7 [cube 0 (-1); cube 1 0; cube 2 (-1); cube 3 0] "red" 4 6)
  = Some (cube 1 0)
  /\ exists before after,
       [cube 0 (-1); cube 1 0; cube 2 (-1); cube 3 0] = before ++ cube 1 0 :: after
       /\ (forall c', In c' before -> Cube.y c' < 0)
       /\ (forall c', In c' after -> Cube.y c' <= 0).
Proof.
  split; [reflexivity|].
  apply (proj2 (X1_lowestYCube_first_maximum
                  (Tetrominos.mk 7 [cube 0 (-1); cube 1 0; cube 2 (-1); cube 3 0]
                     "red" 4 6)) (cube 1 0)).
  reflexivity.
Defined.

(** X2. [isTouchingFloor] fails exactly on a piece without cubes; it answers
    true exactly when some cube stands in row GRID_HEIGHT or beyond, and
    false exactly when the piece has cubes and all of them are above that
    row. *)
Theorem X2_isTouchingFloor_some_cube_at_floor (t : Tetrominos.t) :
  (isTouchingFloor t = None <-> Tetrominos.cubes t = [])
  /\ (isTouchingFloor t = Some true
      <-> exists c, In c (Tetrominos.cubes t)
                    /\ Constants.GRID_HEIGHT <= Tetrominos.y t + Cube.y c)
  /\ (isTouchingFloor t = Some false
      <-> Tetrominos.cubes t <> []
          /\ forall c, In c (Tetrominos.cubes t)
                       -> Tetrominos.y t + Cube.y c < Constants.GRID_HEIGHT).
Proof.
  unfold isTouchingFloor.
  destruct (lowestYCube t) as [low|] eqn:Hlow.
  - destruct (lowestYCube_max t low Hlow) as [Hin Hmax].
    assert (Tetrominos.cubes t <> []) as Hne.
    { intros Hnil. rewrite Hnil in Hin. destruct Hin. }
    split; [split; [discriminate | intros Hnil; contradiction]|].
    destruct (Z.ltb_spec (Cube.y low + Tetrominos.y t) Constants.GRID_HEIGHT)
      as [Hlt|Hge]; split; split.
    + discriminate.
    + intros (c & Hc & Hrow). specialize (Hmax c Hc). lia.
    + intros _. split; [exact Hne|]. intros c Hc. specialize (Hmax c Hc). lia.
    + reflexivity.
    + intros _. exists low. split; [exact Hin | lia].
    + reflexivity.
    + discriminate.
    + intros [_ Hall]. specialize (Hall low Hin). lia.
  - apply lowestYCube_None in Hlow. rewrite Hlow.
    split; [split; reflexivity|]. split; split.
    + discriminate.
    + intros (c & [] & _).
    + discriminate.
    + intros [Hne _]. now contradiction Hne.
Qed.

(** ** The side walls *)

Lemma isInBorder_forall (t : Tetrominos.t) (movement : Action) :
  isInBorder t movement = true
  <-> forall c, In c (Tetrominos.cubes t) ->
                let cubeX := Tetrominos.x t + Cube.x c in
                (1 < cubeX < Constants.GRID_WIDTH)
                \/ (cubeX = 1 /\ ActionField.x movement = 1)
                \/ (cubeX = Constants.GRID_WIDTH /\ ActionField.x movement = -1).
Proof.
  unfold isInBorder. rewrite forallb_forall.
  split; intros H c Hc; specialize (H c Hc); cbv zeta in *.
  - apply orb_true_iff in H. destruct H as [H|H].
    + apply orb_true_iff in H. destruct H as [H|H].
      * apply andb_true_iff in H. destruct H as [H1 H2].
        apply Z.ltb_lt in H1, H2. left. lia.
      * apply andb_true_iff in H. destruct H as [H1 H2].
        apply Z.eqb_eq in H1, H2. right. left. lia.
    + apply andb_true_iff in H. destruct H as [H1 H2].
      apply Z.eqb_eq in H1, H2. right. right. lia.
  - destruct H as [[H1 H2]|[[H1 H2]|[H1 H2]]].
    + apply Z.ltb_lt in H1, H2. now rewrite H1, H2.
    + apply Z.eqb_eq in H1, H2. rewrite H1, H2. simpl.
      now rewrite orb_true_r.
    + apply Z.eqb_eq in H1, H2. rewrite H1, H2. simpl. apply orb_true_r.
Qed.

(** X3. A piece whose cubes all stand in columns 2..9 is within the border
    whatever the movement; for a movement without horizontal part (a tick,
    a rotation) that is also the only way to be within it. *)
Theorem X3_isInBorder_interior (t : Tetrominos.t) (movement : Action) :
  ((forall c, In c (Tetrominos.cubes t)
              -> 2 <= Tetrominos.x t + Cube.x c <= 9)
   -> isInBorder t movement = true)
  /\ (ActionField.x movement = 0 ->
      isInBorder t movement = true ->
      forall c, In c (Tetrominos.cubes t)
                -> 2 <= Tetrominos.x t + Cube.x c <= 9).
Proof.
  rewrite isInBorder_forall. unfold Constants.GRID_WIDTH. split.
  - intros H c Hc. specialize (H c Hc). cbv zeta. lia.
  - intros Hx H c Hc. specialize (H c Hc). cbv zeta in H. lia.
Qed.

Lemma X3_witness :
  isInBorder (createTetrominos 5 1) down = true
  /\ forall c, In c (Tetrominos.cubes (createTetrominos 5 1))
               -> 2 <= Tetrominos.x (createTetrominos 5 1) + Cube.x c <= 9.
Proof.
  assert (isInBorder (createTetrominos 5 1) down = true) as H by reflexivity.
  split; [exact H|].
  exact (proj2 (X3_isInBorder_interior (createTetrominos 5 1) down) eq_refl H).
Defined.

(** X4. When [isInBorder] allows a movement of at most one column, every
    cube of the piece lands in a column from 1 to 10: a piece touching a
    wall is allowed to step away from it only. *)
Theorem X4_isInBorder_keeps_inside_walls
    (t : Tetrominos.t) (dx dy : Z) :
  -1 <= dx <= 1 ->
  isInBorder t (MoveAction dx dy) = true ->
  insideWalls t /\ insideWalls (moved t dx 0) /\ insideWalls (moved t dx dy).
Proof.
  intros Hdx H. rewrite isInBorder_forall in H.
  unfold insideWalls, pieceCells, Constants.GRID_WIDTH in *. simpl in *.
  split; [|split]; intros cell Hin; apply in_map_iff in Hin;
    destruct Hin as (c & <- & Hc); specialize (H c Hc); simpl; lia.
Qed.

Lemma X4_witness :
  insideWalls (moved (Tetrominos.mk 2 [cube 0 0; cube 1 0; cube 2 0; cube 3 0]
                        "yellow" 7 3) (-1) 0).
Proof.
  apply (X4_isInBorder_keeps_inside_walls
           (Tetrominos.mk 2 [cube 0 0; cube 1 0; cube 2 0; cube 3 0] "yellow" 7 3)
           (-1) 0).
  - lia.
  - reflexivity.
Defined.

(** ** Collisions *)

Lemma existsb_pointwise {A : Type} (f g : A -> bool) (l : list A) :
  (forall a, f a = g a) -> existsb f l = existsb g l.
Proof.
  intros H. induction l as [|a l IH]; simpl; [reflexivity|]. now rewrite H, IH.
Qed.

Lemma existsb_map_compose {A B : Type} (f : B -> bool) (g : A -> B) (l : list A) :
  existsb f (map g l) = existsb (fun a => f (g a)) l.
Proof.
  induction l as [|a l IH]; simpl; [reflexivity|]. now rewrite IH.
Qed.

Lemma existsb_flat_map {A B : Type} (f : B -> bool) (g : A -> list B) (l : list A) :
  existsb f (flat_map g l) = existsb (fun a => existsb f (g a)) l.
Proof.
  induction l as [|a l IH]; simpl; [reflexivity|].
  now rewrite existsb_app, IH.
Qed.

(** With the movement applied, [isColliding] is the overlap test on the
    displaced piece. *)
Lemma isColliding_moved (s : State.t) (movement : Action) :
  isColliding s movement true
  = overlapsBoard
      (withCurrent s
         (moved (State.currentTetrominos s)
            (ActionField.x movement) (ActionField.y movement))).
Proof.
  unfold isColliding, overlapsBoard, pieceCells, boardCells. simpl.
  rewrite existsb_map_compose. apply existsb_pointwise. intros c.
  rewrite existsb_flat_map. apply existsb_pointwise. intros t.
  unfold pieceCells. rewrite existsb_map_compose.
  apply existsb_pointwise. intros b. simpl.
  f_equal; f_equal; lia.
Qed.

Lemma isColliding_probe (s : State.t) (movement : Action) :
  isColliding s movement false = isColliding s (MoveAction 0 1) true.
Proof.
  unfold isColliding. simpl.
  apply existsb_pointwise. intros c.
  apply existsb_pointwise. intros t.
  apply existsb_pointwise. intros b.
  f_equal; f_equal; lia.
Qed.

Lemma overlapsBoard_shared (s : State.t) :
  overlapsBoard s = true
  <-> exists cell, In cell (pieceCells (State.currentTetrominos s))
                   /\ In cell (boardCells (State.gameBoard s)).
Proof.
  unfold overlapsBoard. rewrite existsb_exists. split.
  - intros (own & Hown & H). apply existsb_exists in H.
    destruct H as (locked & Hlocked & H).
    apply andb_true_iff in H. destruct H as [H1 H2].
    apply Z.eqb_eq in H1, H2.
    exists own. split; [exact Hown|].
    destruct own, locked; simpl in *; now subst.
  - intros (cell & Hown & Hlocked). exists cell. split; [exact Hown|].
    apply existsb_exists. exists cell. split; [exact Hlocked|].
    now rewrite !Z.eqb_refl.
Qed.

(** X5. With [withMovement = true], [isColliding] holds exactly when a cube
    of the current piece, displaced by the movement, falls on a cell that a
    locked cube occupies. *)
Theorem X5_isColliding_displaced_overlap (s : State.t) (movement : Action) :
  isColliding s movement true = true
  <-> exists c b,
        In c (Tetrominos.cubes (State.currentTetrominos s))
        /\ In b (boardCells (State.gameBoard s))
        /\ fst b = Tetrominos.x (State.currentTetrominos s) + Cube.x c
                   + ActionField.x movement
        /\ snd b = Tetrominos.y (State.currentTetrominos s) + Cube.y c
                   + ActionField.y movement.
Proof.
  rewrite isColliding_moved, overlapsBoard_shared. simpl. split.
  - intros (cell & Hown & Hlocked).
    unfold pieceCells in Hown. apply in_map_iff in Hown.
    destruct Hown as (c & <- & Hc). simpl in *.
    exists c, (Tetrominos.x (State.currentTetrominos s) + ActionField.x movement
               + Cube.x c,
               Tetrominos.y (State.currentTetrominos s) + ActionField.y movement
               + Cube.y c).
    split; [exact Hc|]. split; [exact Hlocked|]. simpl. lia.
  - intros (c & b & Hc & Hb & Hx & Hy). exists b. split; [|exact Hb].
    unfold pieceCells. apply in_map_iff. exists c. split; [|exact Hc].
    destruct b as [bx by_]. simpl in *. f_equal; lia.
Qed.

(** X6. The lock probe ([withMovement = false]) ignores the movement it is
    handed: it is the collision test of a drop by one row. *)
Theorem X6_lock_probe_is_one_row_drop (s : State.t) (movement : Action) :
  isColliding s movement false = isColliding s (MoveAction 0 1) true
  /\ isColliding s movement false
     = overlapsBoard (withCurrent s (moved (State.currentTetrominos s) 0 1)).
Proof.
  split; [apply isColliding_probe|].
  rewrite isColliding_probe. apply (isColliding_moved s (MoveAction 0 1)).
Qed.

(** ** Full rows *)

Lemma fold_left_collect {A B : Type} (p : A -> bool) (g : A -> B) (l : list A) :
  forall acc,
    fold_left (fun found a => if p a then found ++ [g a] else found) l acc
    = acc ++ map g (filter p l).
Proof.
  induction l as [|a l IH]; intros acc; simpl.
  - now rewrite app_nil_r.
  - rewrite IH. destruct (p a); simpl; [|reflexivity].
    now rewrite <- app_assoc.
Qed.

Lemma filter_map_commute {A B : Type} (p : B -> bool) (g : A -> B) (l : list A) :
  filter p (map g l) = map g (filter (fun a => p (g a)) l).
Proof.
  induction l as [|a l IH]; simpl; [reflexivity|].
  destruct (p (g a)); simpl; now rewrite IH.
Qed.

Lemma getFullRows_filter (s : State.t) :
  getFullRows s
  = filter (isRowFull (State.gameBoard s)) (arrayFromOne Constants.GRID_HEIGHT).
Proof.
  unfold getFullRows, arrayFromOne.
  rewrite (fold_left_collect
             (fun rowIndex => isRowFull (State.gameBoard s) (Z.of_nat rowIndex + 1))
             (fun rowIndex => Z.of_nat rowIndex + 1)).
  now rewrite filter_map_commute.
Qed.

Lemma arrayFromOne_sorted (n : Z) : StronglySorted Z.lt (arrayFromOne n).
Proof.
  unfold arrayFromOne. generalize (Z.to_nat n) as len. generalize 0%nat as start.
  intros start len. revert start.
  induction len as [|len IH]; intros start; simpl; constructor.
  - apply IH.
  - apply Forall_forall. intros z Hz. apply in_map_iff in Hz.
    destruct Hz as (i & <- & Hi). apply in_seq in Hi. lia.
Qed.

Lemma StronglySorted_filter {A : Type} (R : A -> A -> Prop) (p : A -> bool)
    (l : list A) :
  StronglySorted R l -> StronglySorted R (filter p l).
Proof.
  induction 1 as [|a l Hsorted IH Hall]; simpl; [constructor|].
  destruct (p a); [|exact IH].
  constructor; [exact IH|].
  apply Forall_forall. intros b Hb. apply filter_In in Hb.
  rewrite Forall_forall in Hall. now apply Hall.
Qed.

Lemma StronglySorted_lt_NoDup (l : list Z) : StronglySorted Z.lt l -> NoDup l.
Proof.
  induction 1 as [|a l Hsorted IH Hall]; constructor; [|exact IH].
  intros Hin. rewrite Forall_forall in Hall. specialize (Hall a Hin). lia.
Qed.

Lemma getFullRows_In (s : State.t) (row : Z) :
  In row (getFullRows s)
  <-> 1 <= row <= Constants.GRID_HEIGHT
      /\ isRowFull (State.gameBoard s) row = true.
Proof.
  rewrite getFullRows_filter, filter_In, arrayFromOne_In. reflexivity.
Qed.

(** X7. [getFullRows] lists exactly the rows from 1 to 20 that [isRowFull]
    accepts, each once and in ascending order. *)
Theorem X7_getFullRows_ascending_full_rows (s : State.t) :
  (forall row,
      In row (getFullRows s)
      <-> 1 <= row <= 20 /\ isRowFull (State.gameBoard s) row = true)
  /\ StronglySorted Z.lt (getFullRows s)
  /\ NoDup (getFullRows s).
Proof.
  split; [exact (getFullRows_In s)|].
  assert (StronglySorted Z.lt (getFullRows s)) as Hsorted.
  { rewrite getFullRows_filter.
    apply StronglySorted_filter, arrayFromOne_sorted. }
  split; [exact Hsorted | now apply StronglySorted_lt_NoDup].
Qed.

(** ** Cubes removed by a clearing *)

Lemma filter_split_length {A : Type} (p : A -> bool) (l : list A) :
  (length (filter (fun a => negb (p a)) l) + length (filter p l) = length l)%nat.
Proof.
  induction l as [|a l IH]; simpl; [reflexivity|].
  destruct (p a); simpl; lia.
Qed.

Lemma filter_disjoint_length {A : Type} (p q : A -> bool) (l : list A) :
  (forall a, p a = true -> q a = false) ->
  length (filter (fun a => p a || q a) l)
  = (length (filter p l) + length (filter q l))%nat.
Proof.
  intros Hdis. induction l as [|a l IH]; simpl; [reflexivity|].
  destruct (p a) eqn:Hp; simpl.
  - rewrite (Hdis a Hp). simpl. now rewrite IH.
  - destruct (q a); simpl; rewrite IH; lia.
Qed.

(** Cubes of the board standing in one of [rows]. *)
Lemma cubes_in_rows (gameBoard : list Tetrominos.t) (rows : list Z) :
  NoDup rows ->
  length (filter (fun cell => includes rows (snd cell)) (boardCells gameBoard))
  = fold_right (fun row total => (cubesInRow gameBoard row + total)%nat) 0%nat rows.
Proof.
  induction 1 as [|row rows Hnotin Hnodup IH]; simpl.
  - induction (boardCells gameBoard) as [|c l IHl]; simpl; [reflexivity|exact IHl].
  - rewrite <- IH. unfold cubesInRow.
    rewrite <- (filter_disjoint_length
                  (fun cell => snd cell =? row)
                  (fun cell => includes rows (snd cell))).
    + f_equal. apply filter_ext. intros cell. now rewrite (Z.eqb_sym row).
    + intros cell Hrow. apply Z.eqb_eq in Hrow. subst row.
      destruct (includes rows (snd cell)) eqn:E; [|reflexivity].
      apply includes_In in E. contradiction.
Qed.

Lemma deleteRow_cells_length (s : State.t) (rows : list Z) :
  lockedCubes (State.gameBoard (deleteRow s rows))
  = length (filter (fun cell => negb (includes rows (snd cell)))
                   (boardCells (State.gameBoard s))).
Proof.
  unfold lockedCubes, deleteRow, boardCells. simpl.
  induction (State.gameBoard s) as [|t b IH]; simpl; [reflexivity|].
  rewrite filter_app, !length_app, IH. f_equal.
  unfold pieceCells. simpl. rewrite filter_map_length, !length_map.
  reflexivity.
Qed.

Lemma deleteRow_accounting (s : State.t) (rows : list Z) :
  NoDup rows ->
  (lockedCubes (State.gameBoard (deleteRow s rows))
   + fold_right (fun row total => (cubesInRow (State.gameBoard s) row + total)%nat)
                0%nat rows
   = lockedCubes (State.gameBoard s))%nat.
Proof.
  intros Hnodup.
  rewrite deleteRow_cells_length, <- (cubes_in_rows _ _ Hnodup).
  apply (filter_split_length (fun cell => includes rows (snd cell))).
Qed.

Lemma full_rows_total (gameBoard : list Tetrominos.t) (rows : list Z) :
  (forall row, In row rows -> isRowFull gameBoard row = true) ->
  fold_right (fun row total => (cubesInRow gameBoard row + total)%nat) 0%nat rows
  = (10 * length rows)%nat.
Proof.
  induction rows as [|row rows IH]; intros Hfull; simpl; [reflexivity|].
  rewrite IH by (intros r Hr; apply Hfull; now right).
  assert (isRowFull gameBoard row = true) as H by (apply Hfull; now left).
  apply isRowFull_count in H. unfold Constants.GRID_WIDTH in H. lia.
Qed.

(** X8. Clearing the full rows of a board takes exactly ten cubes off it
    for each of them, whatever the pieces they belong to; so a board with
    [n] full rows holds at least [10 * n] cubes. *)
Theorem X8_deleteRow_removes_ten_cubes_per_row (s : State.t) :
  (lockedCubes (State.gameBoard (deleteRow s (getFullRows s)))
   + 10 * length (getFullRows s)
   = lockedCubes (State.gameBoard s))%nat
  /\ (10 * length (getFullRows s) <= lockedCubes (State.gameBoard s))%nat.
Proof.
  assert (lockedCubes (State.gameBoard (deleteRow s (getFullRows s)))
          + 10 * length (getFullRows s)
          = lockedCubes (State.gameBoard s))%nat as H.
  { rewrite <- (full_rows_total (State.gameBoard s) (getFullRows s)).
    - apply deleteRow_accounting.
      apply StronglySorted_lt_NoDup. rewrite getFullRows_filter.
      apply StronglySorted_filter, arrayFromOne_sorted.
    - intros row Hrow. apply (getFullRows_In s row) in Hrow. exact (proj2 Hrow). }
  split; [exact H | lia].
Qed.

Lemma filter_all {A : Type} (p : A -> bool) (l : list A) :
  (forall a, p a = true) -> filter p l = l.
Proof.
  intros H. induction l as [|a l IH]; simpl; [reflexivity|].
  now rewrite H, IH.
Qed.

Lemma map_fixed {A : Type} (f : A -> A) (l : list A) :
  (forall a, f a = a) -> map f l = l.
Proof.
  intros H. induction l as [|a l IH]; simpl; [reflexivity|].
  now rewrite H, IH.
Qed.

Lemma deleteRow_nil (s : State.t) : deleteRow s [] = s.
Proof.
  destruct s as [ge board cur sc hs]. unfold deleteRow. simpl.
  rewrite Z.add_0_r, map_map. f_equal.
  apply map_fixed. intros [i cs col tx ty]. simpl.
  rewrite Z.add_0_r. f_equal. now apply filter_all.
Qed.

(** X9. [deleteRow] with no rows returns the state it was given, so the
    [fullRows.length > 0] test of [updateState] changes nothing: while the
    game is not over, a non-Restart action always yields [deleteRow] of the
    updated state for the rows that were full before the step, its score
    raised by 100 for each of them and its [highScore] kept. *)
Theorem X9_clearing_guard_is_redundant
    (seed rand : nat) (s : State.t) (action : Action) :
  isRestart action = false ->
  isGameEnd s = false ->
  deleteRow s [] = s
  /\ updateState seed rand s action
     = option_map (fun updatedState => deleteRow updatedState (getFullRows s))
                  (lockOrMove rand s action)
  /\ forall s',
       updateState seed rand s action = Some s' ->
       State.score s' = State.score s + 100 * Z.of_nat (length (getFullRows s))
       /\ State.highScore s' = State.highScore s.
Proof.
  intros Ha Hend.
  assert (updateState seed rand s action
          = option_map (fun updatedState => deleteRow updatedState (getFullRows s))
                       (lockOrMove rand s action)) as Hstep.
  { rewrite (updateState_playing seed rand s action Ha Hend).
    destruct (lockOrMove rand s action) as [u|]; [|reflexivity].
    simpl. unfold clearLate.
    destruct (getFullRows s); [now rewrite deleteRow_nil | reflexivity]. }
  split; [apply deleteRow_nil|]. split; [exact Hstep|].
  intros s' Hs'. rewrite Hstep in Hs'.
  destruct (lockOrMove rand s action) as [u|] eqn:Hu; [|discriminate].
  cbn [option_map] in Hs'. apply Some_eq in Hs'. subst s'.
  apply lockOrMove_frame in Hu. destruct Hu as (_ & Hscore & Hhigh & _).
  unfold deleteRow. cbn [State.score State.highScore].
  rewrite Hscore, Hhigh. split; reflexivity.
Qed.

Lemma X9_witness :
  isGameEnd (nextTetromino 0 almostFullRow) = false
  /\ updateState 0 0 (nextTetromino 0 almostFullRow) down
     = option_map
         (fun updatedState =>
            deleteRow updatedState (getFullRows (nextTetromino 0 almostFullRow)))
         (lockOrMove 0 (nextTetromino 0 almostFullRow) down).
Proof.
  assert (isGameEnd (nextTetromino 0 almostFullRow) = false) as Hend
      by (vm_compute; reflexivity).
  split; [exact Hend|].
  exact (proj1 (proj2 (X9_clearing_guard_is_redundant
                         0 0 (nextTetromino 0 almostFullRow) down eq_refl Hend))).
Defined.

(** ** Case analysis of one transition *)

Lemma moveTetrominos_move (s u : State.t) (dx dy : Z) :
  moveTetrominos s (MoveAction dx dy) = Some u ->
  (isColliding s (MoveAction dx dy) true = true /\ u = s)
  \/ (isColliding s (MoveAction dx dy) true = false
      /\ exists touching,
           isTouchingFloor (State.currentTetrominos s) = Some touching
           /\ u = withCurrent s
                    (moved (State.currentTetrominos s)
                       (if isInBorder (State.currentTetrominos s) (MoveAction dx dy)
                        then dx else 0)
                       (if touching then 0 else dy))).
Proof.
  simpl. destruct (isColliding s (MoveAction dx dy) true); simpl.
  - intros H. apply Some_eq in H. left. split; [reflexivity | now subst].
  - destruct (isTouchingFloor (State.currentTetrominos s)) as [touching|];
      [|discriminate].
    intros H. apply Some_eq in H. right. split; [reflexivity|].
    exists touching. split; [reflexivity | now subst].
Qed.

Lemma rotateTetrominos_cases (s : State.t) (rotation : Action) :
  rotateTetrominos s rotation = s
  \/ (rotateTetrominos s rotation = rotated s
      /\ Tetrominos.color (State.currentTetrominos s) <> "blue"%string
      /\ isColliding (rotated s) rotation false = false
      /\ isInBorder (State.currentTetrominos (rotated s)) rotation = true).
Proof.
  destruct (String.eqb_spec (Tetrominos.color (State.currentTetrominos s)) "blue")
    as [Hblue|Hcol].
  - left. now apply rotateTetrominos_blue.
  - rewrite (rotateTetrominos_guard s rotation Hcol).
    destruct (isColliding (rotated s) rotation false) eqn:Hprobe;
      cbn [negb andb]; [left; reflexivity|].
    destruct (isInBorder (State.currentTetrominos (rotated s)) rotation) eqn:Hb;
      [|left; reflexivity].
    right. repeat split; [exact Hcol].
Qed.

(** Induction over a play, one premise for each way [updateState] builds
    its result. *)
Lemma reachable_by_steps (seed : nat) (P : State.t -> Prop) :
  P (initialState seed) ->
  (forall s, P s ->
             P (State.mk false [] (createTetrominos seed 1) 0
                  (Z.max (State.score s) (State.highScore s)))) ->
  (forall s, P s -> isGameEnd s = true -> P (frozen s)) ->
  (forall s rand, P s -> validDraw rand = true -> P (nextTetromino rand s)) ->
  (forall s dx dy touching,
      P s ->
      emitted (MoveAction dx dy) = true ->
      isColliding s (MoveAction dx dy) true = false ->
      isTouchingFloor (State.currentTetrominos s) = Some touching ->
      P (withCurrent s
           (moved (State.currentTetrominos s)
              (if isInBorder (State.currentTetrominos s) (MoveAction dx dy)
               then dx else 0)
              (if touching then 0 else dy)))) ->
  (forall s,
      P s ->
      Tetrominos.color (State.currentTetrominos s) <> "blue"%string ->
      isColliding (rotated s) RotateAction false = false ->
      isInBorder (State.currentTetrominos (rotated s)) RotateAction = true ->
      P (rotated s)) ->
  (forall s rows, P s -> P (deleteRow s rows)) ->
  forall s, reachable seed s -> P s.
Proof.
  intros Hinit Hrestart Hfrozen Hlock Hmove Hrotate Hclear s Hreach.
  induction Hreach as [|s a rand s' Hreach IH Hem Hdraw Hstep]; [exact Hinit|].
  destruct (isRestart a) eqn:Ha.
  - destruct a; try discriminate.
    rewrite updateState_restart in Hstep. apply Some_eq in Hstep. subst s'.
    now apply Hrestart.
  - destruct (isGameEnd s) eqn:Hend.
    + rewrite (updateState_over _ _ _ _ Ha Hend) in Hstep.
      apply Some_eq in Hstep. subst s'. now apply Hfrozen.
    + rewrite (updateState_playing _ _ _ _ Ha Hend) in Hstep.
      destruct (lockOrMove rand s a) as [u|] eqn:Hu; [|discriminate].
      cbn [option_map] in Hstep. apply Some_eq in Hstep. subst s'.
      assert (P u) as HPu.
      { unfold lockOrMove in Hu.
        destruct (setTetromino s a) as [[|]|]; [| |discriminate].
        - apply Some_eq in Hu. subst u. now apply Hlock.
        - destruct a as [dx dy| |]; [| |discriminate].
          + apply moveTetrominos_move in Hu.
            destruct Hu as [[_ ->]|(Hfree & touching & Htouch & ->)];
              [exact IH | now apply Hmove].
          + simpl in Hu. apply Some_eq in Hu. subst u.
            destruct (rotateTetrominos_cases s RotateAction)
              as [->|(-> & Hcol & Hprobe & Hborder)];
              [exact IH | now apply Hrotate]. }
      unfold clearLate. destruct (getFullRows s); [exact HPu | now apply Hclear].
Qed.

(** ** Every cube stays between the walls *)

Lemma createTetrominos_insideWalls (randIndex : nat) (nextId : Z) :
  insideWalls (createTetrominos randIndex nextId).
Proof.
  unfold insideWalls, Constants.GRID_WIDTH.
  do 7 (destruct randIndex as [|randIndex];
        [simpl; intros cell Hin;
         repeat (destruct Hin as [<-|Hin];
                 [cbn; change X_SPAWN_POINT with 5; lia|]);
         destruct Hin|]).
  intros cell Hin. destruct randIndex; destruct Hin.
Qed.

Lemma insideWalls_same_columns (t t' : Tetrominos.t) :
  Tetrominos.x t' = Tetrominos.x t ->
  (forall c, In c (Tetrominos.cubes t') -> In c (Tetrominos.cubes t)) ->
  insideWalls t -> insideWalls t'.
Proof.
  intros Hx Hsub H cell Hin. unfold pieceCells in Hin.
  apply in_map_iff in Hin. destruct Hin as (c & <- & Hc). simpl.
  rewrite Hx.
  apply (H (Tetrominos.x t + Cube.x c, Tetrominos.y t + Cube.y c)).
  unfold pieceCells. apply in_map_iff. exists c. split; [reflexivity|].
  now apply Hsub.
Qed.

Lemma isInBorder_insideWalls (t : Tetrominos.t) (dx dy : Z) :
  -1 <= dx <= 1 ->
  isInBorder t (MoveAction dx dy) = true ->
  forall dy', insideWalls (moved t dx dy').
Proof.
  intros Hdx H dy'. rewrite isInBorder_forall in H.
  unfold insideWalls, pieceCells, Constants.GRID_WIDTH in *. simpl in *.
  intros cell Hin. apply in_map_iff in Hin.
  destruct Hin as (c & <- & Hc). specialize (H c Hc). simpl. lia.
Qed.

Lemma emitted_unit_step (dx dy : Z) :
  emitted (MoveAction dx dy) = true ->
  (dx = -1 /\ dy = 0) \/ (dx = 1 /\ dy = 0) \/ (dx = 0 /\ dy = 1).
Proof.
  simpl. intros H.
  repeat (apply orb_true_iff in H; destruct H as [H|H]);
    apply andb_true_iff in H; destruct H as [H1 H2];
    apply Z.eqb_eq in H1, H2; auto.
Qed.

Lemma reachable_insideWalls (seed : nat) (s : State.t) :
  reachable seed s ->
  insideWalls (State.currentTetrominos s)
  /\ Forall insideWalls (State.gameBoard s).
Proof.
  apply (reachable_by_steps seed
           (fun s => insideWalls (State.currentTetrominos s)
                     /\ Forall insideWalls (State.gameBoard s))).
  - split; [apply createTetrominos_insideWalls | constructor].
  - intros s' _. split; [apply createTetrominos_insideWalls | constructor].
  - intros s' H _. exact H.
  - intros s' rand [Hcur Hboard] _. simpl. split.
    + apply createTetrominos_insideWalls.
    + apply Forall_app. split; [exact Hboard | now constructor].
  - intros s' dx dy touching [Hcur Hboard] Hem _ _. simpl.
    split; [|exact Hboard].
    destruct (isInBorder (State.currentTetrominos s') (MoveAction dx dy)) eqn:Hb.
    + apply (isInBorder_insideWalls _ dx dy); [|exact Hb].
      apply emitted_unit_step in Hem. lia.
    + apply (insideWalls_same_columns (State.currentTetrominos s'));
        [simpl; lia | auto | exact Hcur].
  - intros s' [Hcur Hboard] _ _ Hb. split; [|exact Hboard].
    rewrite isInBorder_forall in Hb.
    intros cell Hin. unfold pieceCells in Hin. apply in_map_iff in Hin.
    destruct Hin as (c & <- & Hc). specialize (Hb c Hc).
    unfold Constants.GRID_WIDTH in *. simpl in *. lia.
  - intros s' rows [Hcur Hboard]. split; [exact Hcur|].
    unfold deleteRow. simpl. rewrite map_map.
    rewrite Forall_forall in *. intros t' Hin. apply in_map_iff in Hin.
    destruct Hin as (t & <- & Ht).
    apply (insideWalls_same_columns t); [reflexivity| |now apply Hboard].
    simpl. intros c Hc. apply filter_In in Hc. tauto.
Qed.

(** X10. Throughout a play every cube, of the falling piece and of the
    locked ones, stands in one of the columns 1 to 10: no move, rotation,
    spawn or clearing takes a cube through a side wall. *)
Theorem X10_cubes_stay_between_walls (seed : nat) (s : State.t) :
  reachable seed s ->
  (forall cell, In cell (pieceCells (State.currentTetrominos s))
                -> 1 <= fst cell <= 10)
  /\ (forall cell, In cell (boardCells (State.gameBoard s))
                   -> 1 <= fst cell <= 10).
Proof.
  intros Hreach. destruct (reachable_insideWalls seed s Hreach) as [Hcur Hboard].
  split; [exact Hcur|].
  intros cell Hin. unfold boardCells in Hin. apply in_flat_map in Hin.
  destruct Hin as (t & Ht & Hcell).
  rewrite Forall_forall in Hboard. exact (Hboard t Ht cell Hcell).
Qed.

Lemma X10_witness :
  reachable 5 pinkOnTheBar
  /\ Forall (fun cell => 1 <= fst cell <= 10)
            (boardCells (State.gameBoard pinkOnTheBar)).
Proof.
  assert (reachable 5 pinkOnTheBar) as Hreach
      by exact (run_reachable 5 overlapTrace pinkOnTheBar
                  overlapTrace_playable overlapTrace_run).
  split; [exact Hreach|].
  apply Forall_forall.
  exact (proj2 (X10_cubes_stay_between_walls 5 pinkOnTheBar Hreach)).
Defined.

(** ** Pieces keep four distinct cubes *)

Lemma createTetrominos_shape (randIndex : nat) (nextId : Z) :
  validDraw randIndex = true ->
  length (Tetrominos.cubes (createTetrominos randIndex nextId)) = 4%nat
  /\ NoDup (Tetrominos.cubes (createTetrominos randIndex nextId)).
Proof.
  intros Hdraw.
  do 7 (destruct randIndex as [|randIndex];
        [split; [reflexivity|];
         repeat (constructor; [simpl; intuition discriminate|]); constructor|]).
  discriminate Hdraw.
Qed.

Lemma rotateCube_injective (c c' : Cube.t) :
  rotateCube c = rotateCube c' -> c = c'.
Proof.
  destruct c as [cx cy], c' as [cx' cy']. unfold rotateCube. simpl.
  intros H. injection H as Hy Hx. f_equal; lia.
Qed.

Lemma NoDup_map_rotateCube (cs : list Cube.t) :
  NoDup cs -> NoDup (map rotateCube cs).
Proof.
  induction 1 as [|c cs Hnotin Hnodup IH]; simpl; constructor; [|exact IH].
  intros Hin. apply in_map_iff in Hin. destruct Hin as (c' & Heq & Hc').
  apply rotateCube_injective in Heq. now subst.
Qed.

Lemma reachable_fourDistinct (seed : nat) (s : State.t) :
  validDraw seed = true -> reachable seed s -> fourDistinct s.
Proof.
  intros Hseed. unfold fourDistinct.
  apply (reachable_by_steps seed
           (fun s =>
              length (Tetrominos.cubes (State.currentTetrominos s)) = 4%nat
              /\ NoDup (Tetrominos.cubes (State.currentTetrominos s))
              /\ Forall (fun t => (length (Tetrominos.cubes t) <= 4)%nat
                                  /\ NoDup (Tetrominos.cubes t))
                        (State.gameBoard s))).
  - destruct (createTetrominos_shape seed 1 Hseed) as [Hlen Hnd].
    split; [exact Hlen|]. split; [exact Hnd | constructor].
  - intros s' _. destruct (createTetrominos_shape seed 1 Hseed) as [Hlen Hnd].
    split; [exact Hlen|]. split; [exact Hnd | constructor].
  - intros s' H _. exact H.
  - intros s' rand (Hlen & Hnd & Hboard) Hdraw.
    destruct (createTetrominos_shape
                rand (Tetrominos.id (State.currentTetrominos s')) Hdraw)
      as [Hlen' Hnd'].
    split; [exact Hlen'|]. split; [exact Hnd'|].
    simpl. apply Forall_app. split; [exact Hboard|].
    constructor; [|constructor]. split; [lia | exact Hnd].
  - intros s' dx dy touching H _ _ _. exact H.
  - intros s' (Hlen & Hnd & Hboard) _ _ _. simpl.
    split; [now rewrite length_map|].
    split; [now apply NoDup_map_rotateCube | exact Hboard].
  - intros s' rows (Hlen & Hnd & Hboard).
    split; [exact Hlen|]. split; [exact Hnd|].
    unfold deleteRow. simpl. rewrite map_map.
    rewrite Forall_forall in *. intros t' Hin. apply in_map_iff in Hin.
    destruct Hin as (t & <- & Ht). destruct (Hboard t Ht) as [Hl Hn]. simpl.
    split.
    + pose proof (filter_length_le
                    (fun c => negb (includes rows (Tetrominos.y t + Cube.y c)))
                    (Tetrominos.cubes t)). lia.
    + now apply NoDup_filter.
Qed.

Lemma pieceCells_NoDup (t : Tetrominos.t) :
  NoDup (Tetrominos.cubes t) -> NoDup (pieceCells t).
Proof.
  unfold pieceCells. induction 1 as [|c cs Hnotin Hn IH]; simpl;
    constructor; [|exact IH].
  intros Hin. apply in_map_iff in Hin. destruct Hin as (c' & Heq & Hc').
  injection Heq as Hx Hy. destruct c as [cx cy], c' as [cx' cy']. simpl in *.
  assert (cx' = cx) by lia. assert (cy' = cy) by lia. subst. contradiction.
Qed.

(** X11. In a play that starts from a catalogue piece, the falling piece
    always has exactly four cubes on four different cells, and a locked
    piece has at most four, on different cells: rotation, movement and
    clearing never duplicate or invent a cube. *)
Theorem X11_pieces_keep_four_distinct_cubes (seed : nat) (s : State.t) :
  validDraw seed = true ->
  reachable seed s ->
  length (Tetrominos.cubes (State.currentTetrominos s)) = 4%nat
  /\ NoDup (pieceCells (State.currentTetrominos s))
  /\ forall t, In t (State.gameBoard s) ->
               (length (Tetrominos.cubes t) <= 4)%nat /\ NoDup (pieceCells t).
Proof.
  intros Hseed Hreach.
  destruct (reachable_fourDistinct seed s Hseed Hreach) as (Hlen & Hnd & Hboard).
  split; [exact Hlen|]. split; [now apply pieceCells_NoDup|].
  intros t Ht. rewrite Forall_forall in Hboard.
  destruct (Hboard t Ht) as [Hl Hn]. split; [exact Hl | now apply pieceCells_NoDup].
Qed.

Lemma X11_witness :
  validDraw 5 = true
  /\ reachable 5 besideTheBar
  /\ length (Tetrominos.cubes (State.currentTetrominos besideTheBar)) = 4%nat
  /\ NoDup (pieceCells (State.currentTetrominos besideTheBar)).
Proof.
  assert (reachable 5 besideTheBar) as Hreach
      by exact (run_reachable 5 approachTrace besideTheBar
                  approachTrace_playable approachTrace_run).
  split; [reflexivity|]. split; [exact Hreach|].
  destruct (X11_pieces_keep_four_distinct_cubes 5 besideTheBar eq_refl Hreach)
    as (Hlen & Hnd & _).
  split; [exact Hlen | exact Hnd].
Defined.

(** ** The engine never throws during a play *)

Lemma isTouchingFloor_None (t : Tetrominos.t) :
  isTouchingFloor t = None -> Tetrominos.cubes t = [].
Proof.
  unfold isTouchingFloor. destruct (lowestYCube t) eqn:E; [discriminate|].
  intros _. now apply lowestYCube_None.
Qed.

Lemma updateState_defined (seed rand : nat) (s : State.t) (action : Action) :
  Tetrominos.cubes (State.currentTetrominos s) <> [] ->
  exists s', updateState seed rand s action = Some s'.
Proof.
  intros Hne.
  destruct (isRestart action) eqn:Ha.
  - destruct action; try discriminate. eexists. apply updateState_restart.
  - destruct (isGameEnd s) eqn:Hend.
    + eexists. now apply updateState_over.
    + rewrite (updateState_playing seed rand s action Ha Hend).
      assert (exists touching,
                 isTouchingFloor (State.currentTetrominos s) = Some touching)
        as [touching Htouch].
      { destruct (isTouchingFloor (State.currentTetrominos s)) as [b|] eqn:E;
          [now exists b|].
        apply isTouchingFloor_None in E. contradiction. }
      unfold lockOrMove, setTetromino. rewrite Htouch.
      destruct (touching || isColliding s action false); cbn [option_map];
        [eexists; reflexivity|].
      destruct action as [dx dy| |]; [| |discriminate]; simpl.
      * rewrite Htouch. destruct (negb _); eexists; reflexivity.
      * eexists; reflexivity.
Qed.

(** X12. [updateState] throws exactly when it is handed a non-Restart
    action on a board that is not over while the current piece has no
    cubes; in a play that starts from a catalogue piece this never happens,
    whatever the action and the draw. *)
Theorem X12_updateState_throws_only_without_cubes
    (seed rand : nat) (s : State.t) (action : Action) :
  (updateState seed rand s action = None
   <-> isRestart action = false
       /\ isGameEnd s = false
       /\ Tetrominos.cubes (State.currentTetrominos s) = [])
  /\ (validDraw seed = true ->
      reachable seed s ->
      exists s', updateState seed rand s action = Some s').
Proof.
  split.
  - split.
    + intros Hnone.
      destruct (Tetrominos.cubes (State.currentTetrominos s)) as [|c cs] eqn:Hc.
      * destruct (isRestart action) eqn:Ha.
        -- destruct action; discriminate.
        -- destruct (isGameEnd s) eqn:Hend; [|auto].
           rewrite (updateState_over _ _ _ _ Ha Hend) in Hnone. discriminate.
      * destruct (updateState_defined seed rand s action) as [s' Hs'];
          [rewrite Hc; discriminate | congruence].
    + intros (Ha & Hend & Hnil).
      rewrite (updateState_playing seed rand s action Ha Hend).
      unfold lockOrMove, setTetromino, isTouchingFloor, lowestYCube.
      now rewrite Hnil.
  - intros Hseed Hreach. apply updateState_defined.
    destruct (reachable_fourDistinct seed s Hseed Hreach) as (Hlen & _).
    intros Hnil. rewrite Hnil in Hlen. discriminate.
Qed.

Lemma X12_witness :
  validDraw 5 = true
  /\ reachable 5 pinkOnTheBar
  /\ exists s', updateState 5 6 pinkOnTheBar RotateAction = Some s'.
Proof.
  assert (reachable 5 pinkOnTheBar) as Hreach
      by exact (run_reachable 5 overlapTrace pinkOnTheBar
                  overlapTrace_playable overlapTrace_run).
  split; [reflexivity|]. split; [exact Hreach|].
  exact (proj2 (X12_updateState_throws_only_without_cubes
                  5 6 pinkOnTheBar RotateAction) eq_refl Hreach).
Defined.

(** ** The lock rule *)

Lemma isColliding_rests (s : State.t) (movement : Action) :
  isColliding s movement false = true <-> restsOnLocked s.
Proof.
  rewrite isColliding_probe, isColliding_moved, overlapsBoard_shared.
  unfold restsOnLocked, pieceCells. simpl. split.
  - intros (cell & Hown & Hlocked). apply in_map_iff in Hown.
    destruct Hown as (c & <- & Hc). simpl in *.
    exists (Tetrominos.x (State.currentTetrominos s) + Cube.x c,
            Tetrominos.y (State.currentTetrominos s) + Cube.y c).
    split; [apply in_map_iff; now exists c|]. simpl.
    replace (Tetrominos.x (State.currentTetrominos s) + Cube.x c)
      with (Tetrominos.x (State.currentTetrominos s) + 0 + Cube.x c) by lia.
    replace (Tetrominos.y (State.currentTetrominos s) + Cube.y c + 1)
      with (Tetrominos.y (State.currentTetrominos s) + 1 + Cube.y c) by lia.
    exact Hlocked.
  - intros (cell & Hown & Hlocked). apply in_map_iff in Hown.
    destruct Hown as (c & <- & Hc). simpl in *.
    exists (Tetrominos.x (State.currentTetrominos s) + Cube.x c,
            Tetrominos.y (State.currentTetrominos s) + Cube.y c + 1).
    split; [|exact Hlocked].
    apply in_map_iff. exists c. split; [|exact Hc]. simpl. f_equal; lia.
Qed.

(** X13. [setTetromino] decides to lock exactly when a cube of the current
    piece stands in row 20 or beyond, or has a locked cube in the cell right
    below it; the action it is handed plays no part. *)
Theorem X13_lock_rule (s : State.t) (movement : Action) :
  Tetrominos.cubes (State.currentTetrominos s) <> [] ->
  (setTetromino s movement = Some true
   <-> (exists c, In c (Tetrominos.cubes (State.currentTetrominos s))
                  /\ 20 <= Tetrominos.y (State.currentTetrominos s) + Cube.y c)
       \/ restsOnLocked s)
  /\ (setTetromino s movement = Some true \/ setTetromino s movement = Some false)
  /\ setTetromino s movement = setTetromino s RotateAction.
Proof.
  intros Hne.
  assert (exists touching,
             isTouchingFloor (State.currentTetrominos s) = Some touching)
    as [touching Htouch].
  { destruct (isTouchingFloor (State.currentTetrominos s)) as [b|] eqn:E;
      [now exists b|].
    apply isTouchingFloor_None in E. contradiction. }
  assert (isColliding s movement false = isColliding s RotateAction false) as Hsame.
  { now rewrite (isColliding_probe s movement), (isColliding_probe s RotateAction). }
  unfold setTetromino. rewrite Htouch, Hsame.
  split; [|split; [destruct (touching || _); auto | reflexivity]].
  pose proof (isColliding_rests s RotateAction) as Hrests.
  assert (touching = true
          <-> exists c, In c (Tetrominos.cubes (State.currentTetrominos s))
                        /\ 20 <= Tetrominos.y (State.currentTetrominos s) + Cube.y c)
    as Hfloor.
  { unfold isTouchingFloor in Htouch.
    destruct (lowestYCube (State.currentTetrominos s)) as [low|] eqn:Hlow;
      [|discriminate].
    destruct (lowestYCube_max _ low Hlow) as [Hin Hmax].
    apply Some_eq in Htouch. unfold Constants.GRID_HEIGHT in Htouch.
    destruct (Z.ltb_spec (Cube.y low + Tetrominos.y (State.currentTetrominos s)) 20)
      as [Hlt|Hge]; subst touching; split.
    - discriminate.
    - intros (c & Hc & Hrow). specialize (Hmax c Hc). lia.
    - intros _. exists low. split; [exact Hin | lia].
    - reflexivity. }
  destruct touching; simpl.
  - split; [intros _; left; now apply Hfloor | reflexivity].
  - destruct (isColliding s RotateAction false).
    + split; [intros _; right; now apply Hrests | reflexivity].
    + split; [discriminate|]. intros [H|H].
      * apply Hfloor in H. discriminate.
      * apply Hrests in H. discriminate.
Qed.

Lemma X13_witness :
  Tetrominos.cubes (State.currentTetrominos almostFullRow) <> []
  /\ setTetromino almostFullRow left = setTetromino almostFullRow RotateAction.
Proof.
  assert (Tetrominos.cubes (State.currentTetrominos almostFullRow) <> []) as Hne
      by (vm_compute; discriminate).
  split; [exact Hne|].
  exact (proj2 (proj2 (X13_lock_rule almostFullRow left Hne))).
Defined.

(** ** A tick is never blocked *)

(** X14. While the game is not over, a tick (Move(0, 1)) either locks the
    current piece or lowers it by exactly one row with its column unchanged;
    it never leaves the piece where it was.  The rows that were full before
    the step are then cleared from the result. *)
Theorem X14_tick_locks_or_lowers
    (seed rand : nat) (s s' : State.t) :
  isGameEnd s = false ->
  updateState seed rand s (MoveAction 0 1) = Some s' ->
  s' = deleteRow (nextTetromino rand s) (getFullRows s)
  \/ s' = deleteRow (withCurrent s (moved (State.currentTetrominos s) 0 1))
                    (getFullRows s).
Proof.
  intros Hend Hstep.
  rewrite (updateState_playing seed rand s (MoveAction 0 1) eq_refl Hend) in Hstep.
  destruct (lockOrMove rand s (MoveAction 0 1)) as [u|] eqn:Hu; [|discriminate].
  cbn [option_map] in Hstep. apply Some_eq in Hstep.
  assert (clearLate s u = deleteRow u (getFullRows s)) as Hclear.
  { unfold clearLate. destruct (getFullRows s); [now rewrite deleteRow_nil|reflexivity]. }
  rewrite Hclear in Hstep. subst s'.
  unfold lockOrMove, setTetromino in Hu.
  destruct (isTouchingFloor (State.currentTetrominos s)) as [touching|] eqn:Htouch;
    [|discriminate].
  destruct touching; cbn [orb] in Hu.
  - apply Some_eq in Hu. subst u. now left.
  - destruct (isColliding s (MoveAction 0 1) false) eqn:Hprobe.
    + apply Some_eq in Hu. subst u. now left.
    + rewrite isColliding_probe in Hprobe.
      apply moveTetrominos_move in Hu.
      destruct Hu as [[Hhit _]|(_ & touching & Htouch' & ->)]; [congruence|].
      rewrite Htouch in Htouch'. apply Some_eq in Htouch'. subst touching.
      right. now destruct (isInBorder _ _).
Qed.

Lemma X14_witness :
  isGameEnd (initialState 2) = false
  /\ updateState 2 0 (initialState 2) (MoveAction 0 1)
     = Some (withCurrent (initialState 2)
               (moved (State.currentTetrominos (initialState 2)) 0 1))
  /\ (withCurrent (initialState 2)
        (moved (State.currentTetrominos (initialState 2)) 0 1)
      = deleteRow (nextTetromino 0 (initialState 2)) (getFullRows (initialState 2))
      \/ withCurrent (initialState 2)
           (moved (State.currentTetrominos (initialState 2)) 0 1)
         = deleteRow (withCurrent (initialState 2)
                        (moved (State.currentTetrominos (initialState 2)) 0 1))
                     (getFullRows (initialState 2))).
Proof.
  assert (isGameEnd (initialState 2) = false) as Hend by (vm_compute; reflexivity).
  assert (updateState 2 0 (initialState 2) (MoveAction 0 1)
          = Some (withCurrent (initialState 2)
                    (moved (State.currentTetrominos (initialState 2)) 0 1)))
    as Hstep by (vm_compute; reflexivity).
  split; [exact Hend|]. split; [exact Hstep|].
  exact (X14_tick_locks_or_lowers 2 0 (initialState 2) _ Hend Hstep).
Defined.

(** ** Moves respect the locked cubes *)

Lemma pieceCells_moved_zero (t : Tetrominos.t) :
  pieceCells (moved t 0 0) = pieceCells t.
Proof.
  unfold pieceCells. simpl. apply map_ext. intros c. f_equal; lia.
Qed.

(** X15. A Move along one axis never carries the current piece onto a
    locked cube: if the piece overlaps no locked cube before
    [moveTetrominos], it overlaps none after. *)
Theorem X15_move_never_enters_locked_cell
    (s u : State.t) (dx dy : Z) :
  dx = 0 \/ dy = 0 ->
  overlapsBoard s = false ->
  moveTetrominos s (MoveAction dx dy) = Some u ->
  overlapsBoard u = false.
Proof.
  intros Haxis Hclear Hmove. apply moveTetrominos_move in Hmove.
  destruct Hmove as [[_ ->]|(Hfree & touching & _ & ->)]; [exact Hclear|].
  rewrite isColliding_moved in Hfree. simpl in Hfree.
  assert (overlapsBoard (withCurrent s (moved (State.currentTetrominos s) 0 0))
          = false) as Hstay.
  { unfold overlapsBoard in *. simpl. now rewrite pieceCells_moved_zero. }
  destruct (isInBorder (State.currentTetrominos s) (MoveAction dx dy)), touching,
    Haxis as [-> | ->]; assumption.
Qed.

Lemma X15_witness :
  overlapsBoard besideTheBar = false
  /\ moveTetrominos besideTheBar (MoveAction 1 0)
     = Some (withCurrent besideTheBar
               (moved (State.currentTetrominos besideTheBar) 1 0))
  /\ overlapsBoard (withCurrent besideTheBar
                      (moved (State.currentTetrominos besideTheBar) 1 0))
     = false.
Proof.
  assert (overlapsBoard besideTheBar = false) as Hclear by (vm_compute; reflexivity).
  assert (moveTetrominos besideTheBar (MoveAction 1 0)
          = Some (withCurrent besideTheBar
                    (moved (State.currentTetrominos besideTheBar) 1 0)))
    as Hmove by (vm_compute; reflexivity).
  split; [exact Hclear|]. split; [exact Hmove|].
  exact (X15_move_never_enters_locked_cell besideTheBar _ 1 0
           (or_intror eq_refl) Hclear Hmove).
Defined.

(** ** Rotation, as the guard decides it *)

(** X16. For any piece but the blue square, [rotateTetrominos] installs
    the rotated form when no cube of that form has a locked cube in the
    cell right below it and all its cubes stand in columns 2..9; it returns
    the state as it is when some cube of the rotated form has a locked cube
    right below it or stands outside columns 2..9.  The anchor is the same
    in both cases. *)
Theorem X16_rotation_guard (s : State.t) :
  Tetrominos.color (State.currentTetrominos s) <> "blue"%string ->
  (~ restsOnLocked (rotated s)
   /\ (forall cell, In cell (pieceCells (State.currentTetrominos (rotated s)))
                    -> 2 <= fst cell <= 9)
   -> rotateTetrominos s RotateAction = rotated s)
  /\ (restsOnLocked (rotated s)
      \/ (exists cell, In cell (pieceCells (State.currentTetrominos (rotated s)))
                       /\ ~ 2 <= fst cell <= 9)
      -> rotateTetrominos s RotateAction = s)
  /\ Tetrominos.x (State.currentTetrominos (rotateTetrominos s RotateAction))
     = Tetrominos.x (State.currentTetrominos s)
  /\ Tetrominos.y (State.currentTetrominos (rotateTetrominos s RotateAction))
     = Tetrominos.y (State.currentTetrominos s).
Proof.
  intros Hcol. rewrite (rotateTetrominos_guard s RotateAction Hcol).
  pose proof (isColliding_rests (rotated s) RotateAction) as Hrests.
  pose proof (isInBorder_forall (State.currentTetrominos (rotated s)) RotateAction)
    as Hborder.
  unfold Constants.GRID_WIDTH in Hborder. cbv zeta in Hborder. simpl ActionField.x in Hborder.
  split; [|split].
  - intros [Hfree Hcols].
    destruct (isColliding (rotated s) RotateAction false);
      [exfalso; apply Hfree; now apply Hrests|].
    assert (isInBorder (State.currentTetrominos (rotated s)) RotateAction = true)
      as ->; [|reflexivity].
    apply Hborder. intros c Hc.
    assert (2 <= fst (Tetrominos.x (State.currentTetrominos (rotated s)) + Cube.x c,
                      Tetrominos.y (State.currentTetrominos (rotated s)) + Cube.y c)
            <= 9) as H.
    { apply Hcols. unfold pieceCells. apply in_map_iff. now exists c. }
    cbn [fst] in H. lia.
  - intros [Hhit|(cell & Hcell & Hout)].
    + apply Hrests in Hhit. now rewrite Hhit.
    + destruct (isColliding (rotated s) RotateAction false); [reflexivity|].
      destruct (isInBorder (State.currentTetrominos (rotated s)) RotateAction)
        eqn:Hb; [|reflexivity].
      exfalso. apply Hout.
      unfold pieceCells in Hcell. apply in_map_iff in Hcell.
      destruct Hcell as (c & <- & Hc).
      pose proof (proj1 Hborder eq_refl c Hc) as H. cbn [fst]. lia.
  - destruct (negb _ && _); split; reflexivity.
Qed.

Lemma X16_witness :
  Tetrominos.color (State.currentTetrominos besideTheBar) <> "blue"%string
  /\ Tetrominos.x (State.currentTetrominos (rotateTetrominos besideTheBar RotateAction))
     = Tetrominos.x (State.currentTetrominos besideTheBar).
Proof.
  assert (Tetrominos.color (State.currentTetrominos besideTheBar) <> "blue"%string)
    as Hcol by (vm_compute; discriminate).
  split; [exact Hcol|].
  exact (proj1 (proj2 (proj2 (X16_rotation_guard besideTheBar Hcol)))).
Defined.

(** ** The spawn *)

(** X17. Whatever catalogue index is drawn, the new piece gets the id that
    follows the given one, copies the cubes and colour of a catalogue entry,
    is anchored at column 5, row 0, and occupies only columns 3..8 of rows
    -1 and 0: it spawns off the floor and clear of both walls. *)
Theorem X17_spawn_position (randIndex : nat) (nextId : Z) :
  validDraw randIndex = true ->
  Tetrominos.id (createTetrominos randIndex nextId) = nextId + 1
  /\ (exists d, In d defaultTetrominos
                /\ Tetrominos.cubes (createTetrominos randIndex nextId)
                   = Tetrominos.cubes d
                /\ Tetrominos.color (createTetrominos randIndex nextId)
                   = Tetrominos.color d)
  /\ Tetrominos.x (createTetrominos randIndex nextId) = 5
  /\ Tetrominos.y (createTetrominos randIndex nextId) = 0
  /\ (forall cell, In cell (pieceCells (createTetrominos randIndex nextId))
                   -> 3 <= fst cell <= 8 /\ -1 <= snd cell <= 0)
  /\ isTouchingFloor (createTetrominos randIndex nextId) = Some false
  /\ forall movement, isInBorder (createTetrominos randIndex nextId) movement = true.
Proof.
  intros Hdraw.
  split; [reflexivity|]. split.
  { exists (nth randIndex defaultTetrominos noTetrominos).
    split; [|split; reflexivity].
    apply nth_In. unfold validDraw in Hdraw. now apply Nat.ltb_lt in Hdraw. }
  do 7 (destruct randIndex as [|randIndex];
        [split; [reflexivity|]; split; [reflexivity|];
         split; [|split; [reflexivity|intros movement; reflexivity]];
         intros cell Hin; cbn in Hin; change X_SPAWN_POINT with 5 in Hin;
         repeat (destruct Hin as [<-|Hin]; [cbn; lia|]); destruct Hin|]).
  discriminate Hdraw.
Qed.

Lemma X17_witness :
  validDraw 6 = true
  /\ Tetrominos.id (createTetrominos 6 41) = 42
  /\ isTouchingFloor (createTetrominos 6 41) = Some false.
Proof.
  split; [reflexivity|].
  destruct (X17_spawn_position 6 41 eq_refl) as (Hid & _ & _ & _ & _ & Hfloor & _).
  split; [exact Hid | exact Hfloor].
Defined.

(** ** Ids of the locked pieces *)

Lemma idsFromTwo_succ (n : nat) :
  idsFromTwo (S n) = idsFromTwo n ++ [Z.of_nat n + 2].
Proof.
  unfold idsFromTwo. rewrite seq_S, map_app. reflexivity.
Qed.

Lemma idsFromTwo_In (n : nat) (i : Z) :
  In i (idsFromTwo n) <-> 2 <= i < Z.of_nat n + 2.
Proof.
  unfold idsFromTwo. rewrite in_map_iff. split.
  - intros (k & <- & Hk). apply in_seq in Hk. lia.
  - intros H. exists (Z.to_nat (i - 2)). split; [lia|]. apply in_seq. lia.
Qed.

Lemma idsFromTwo_NoDup (n : nat) : NoDup (idsFromTwo n).
Proof.
  induction n as [|n IH]; [constructor|].
  rewrite idsFromTwo_succ. apply NoDup_app; [exact IH| |].
  - constructor; [intros []|constructor].
  - intros i Hi [<-|[]]. apply idsFromTwo_In in Hi. lia.
Qed.

Lemma reachable_ids (seed : nat) (s : State.t) :
  reachable seed s ->
  map Tetrominos.id (State.gameBoard s) = idsFromTwo (length (State.gameBoard s))
  /\ Tetrominos.id (State.currentTetrominos s)
     = Z.of_nat (length (State.gameBoard s)) + 2.
Proof.
  apply (reachable_by_steps seed
           (fun s =>
              map Tetrominos.id (State.gameBoard s)
              = idsFromTwo (length (State.gameBoard s))
              /\ Tetrominos.id (State.currentTetrominos s)
                 = Z.of_nat (length (State.gameBoard s)) + 2)).
  - split; reflexivity.
  - intros s' _. split; reflexivity.
  - intros s' H _. exact H.
  - intros s' rand [Hboard Hcur] _. simpl.
    rewrite map_app, length_app, Hboard. simpl. rewrite Hcur.
    rewrite Nat.add_1_r, idsFromTwo_succ. split; [reflexivity | lia].
  - intros s' dx dy touching H _ _ _. exact H.
  - intros s' H _ _ _. exact H.
  - intros s' rows [Hboard Hcur]. unfold deleteRow. simpl.
    rewrite !length_map, !map_map. simpl. split; [exact Hboard | exact Hcur].
Qed.

(** X18. In every state of a play the locked pieces carry the ids 2, 3, 4,
    ... in locking order and the falling piece carries the next one, so no
    two pieces of a board share an id; a Restart starts again from 2. *)
Theorem X18_ids_count_the_locks (seed : nat) (s : State.t) :
  reachable seed s ->
  map Tetrominos.id (State.gameBoard s) = idsFromTwo (length (State.gameBoard s))
  /\ Tetrominos.id (State.currentTetrominos s)
     = Z.of_nat (length (State.gameBoard s)) + 2
  /\ NoDup (map Tetrominos.id (State.gameBoard s))
  /\ forall t, In t (State.gameBoard s)
               -> 2 <= Tetrominos.id t < Tetrominos.id (State.currentTetrominos s).
Proof.
  intros Hreach. destruct (reachable_ids seed s Hreach) as [Hboard Hcur].
  split; [exact Hboard|]. split; [exact Hcur|]. split.
  - rewrite Hboard. apply idsFromTwo_NoDup.
  - intros t Ht. rewrite Hcur. apply idsFromTwo_In. rewrite <- Hboard.
    now apply in_map.
Qed.

Lemma X18_witness :
  reachable 5 pinkOnTheBar
  /\ map Tetrominos.id (State.gameBoard pinkOnTheBar) = [2; 3]
  /\ Tetrominos.id (State.currentTetrominos pinkOnTheBar) = 4.
Proof.
  assert (reachable 5 pinkOnTheBar) as Hreach
      by exact (run_reachable 5 overlapTrace pinkOnTheBar
                  overlapTrace_playable overlapTrace_run).
  split; [exact Hreach|].
  destruct (X18_ids_count_the_locks 5 pinkOnTheBar Hreach) as (Hboard & Hcur & _).
  split; [exact Hboard | exact Hcur].
Defined.

(** ** The game-over flag and the counters *)

Lemma reachable_gameEnd (seed : nat) (s : State.t) :
  reachable seed s -> State.gameEnd s = true -> isGameEnd s = true.
Proof.
  induction 1 as [|s a rand s' Hreach IH Hem Hdraw Hstep]; [discriminate|].
  destruct (isRestart a) eqn:Ha.
  - destruct a; try discriminate.
    rewrite updateState_restart in Hstep. apply Some_eq in Hstep. subst s'.
    discriminate.
  - destruct (isGameEnd s) eqn:Hend.
    + rewrite (updateState_over _ _ _ _ Ha Hend) in Hstep.
      apply Some_eq in Hstep. subst s'. intros _. exact Hend.
    + rewrite (updateState_playing _ _ _ _ Ha Hend) in Hstep.
      destruct (lockOrMove rand s a) as [u|] eqn:Hu; [|discriminate].
      cbn [option_map] in Hstep. apply Some_eq in Hstep. subst s'.
      apply lockOrMove_frame in Hu. destruct Hu as (_ & _ & _ & Hflag).
      assert (State.gameEnd (clearLate s u) = State.gameEnd s) as ->.
      { unfold clearLate. now destruct (getFullRows s). }
      intros Hset. specialize (IH Hset). congruence.
Qed.

(** X19. In a play the [gameEnd] flag is up only on a board that has a full
    column.  It comes up one action late: the transition that is given a
    board without a full column returns the flag down, whatever board it
    produces. *)
Theorem X19_gameEnd_flag_follows_full_column
    (seed rand : nat) (s : State.t) (action : Action) :
  reachable seed s ->
  (State.gameEnd s = true -> isGameEnd s = true)
  /\ (isGameEnd s = false ->
      forall s', updateState seed rand s action = Some s'
                 -> State.gameEnd s' = false).
Proof.
  intros Hreach. pose proof (reachable_gameEnd seed s Hreach) as Hflag.
  split; [exact Hflag|].
  intros Hend s' Hstep.
  assert (State.gameEnd s = false) as Hdown.
  { destruct (State.gameEnd s); [|reflexivity]. rewrite Hflag in Hend; congruence. }
  destruct (isRestart action) eqn:Ha.
  - destruct action; try discriminate.
    rewrite updateState_restart in Hstep. apply Some_eq in Hstep. now subst s'.
  - rewrite (updateState_playing _ _ _ _ Ha Hend) in Hstep.
    destruct (lockOrMove rand s action) as [u|] eqn:Hu; [|discriminate].
    cbn [option_map] in Hstep. apply Some_eq in Hstep. subst s'.
    apply lockOrMove_frame in Hu. destruct Hu as (_ & _ & _ & Hsame).
    unfold clearLate. destruct (getFullRows s); simpl; congruence.
Qed.

Lemma X19_witness :
  reachable 5 pinkOnTheBar
  /\ isGameEnd pinkOnTheBar = false
  /\ updateState 5 0 pinkOnTheBar down
     = Some (withCurrent pinkOnTheBar
               (moved (State.currentTetrominos pinkOnTheBar) 0 1))
  /\ State.gameEnd (withCurrent pinkOnTheBar
                      (moved (State.currentTetrominos pinkOnTheBar) 0 1))
     = false.
Proof.
  assert (reachable 5 pinkOnTheBar) as Hreach
      by exact (run_reachable 5 overlapTrace pinkOnTheBar
                  overlapTrace_playable overlapTrace_run).
  assert (isGameEnd pinkOnTheBar = false) as Hend by (vm_compute; reflexivity).
  assert (updateState 5 0 pinkOnTheBar down
          = Some (withCurrent pinkOnTheBar
                    (moved (State.currentTetrominos pinkOnTheBar) 0 1)))
    as Hstep by (vm_compute; reflexivity).
  split; [exact Hreach|]. split; [exact Hend|]. split; [exact Hstep|].
  exact (proj2 (X19_gameEnd_flag_follows_full_column 5 0 pinkOnTheBar down Hreach)
           Hend _ Hstep).
Defined.

Lemma reachable_hundreds (seed : nat) (s : State.t) :
  reachable seed s ->
  (0 <= State.score s /\ (100 | State.score s))
  /\ (0 <= State.highScore s /\ (100 | State.highScore s)).
Proof.
  apply (reachable_by_steps seed
           (fun s => (0 <= State.score s /\ (100 | State.score s))
                     /\ (0 <= State.highScore s /\ (100 | State.highScore s)))).
  - simpl. repeat split; try lia; apply Z.divide_0_r.
  - intros s' [Hs Hh]. simpl. split; [split; [lia | apply Z.divide_0_r]|].
    destruct (Z.max_spec (State.score s') (State.highScore s')) as [[_ ->]|[_ ->]];
      assumption.
  - intros s' H _. exact H.
  - intros s' rand H _. exact H.
  - intros s' dx dy touching H _ _ _. exact H.
  - intros s' H _ _ _. exact H.
  - intros s' rows [[Hpos Hdiv] Hh]. unfold deleteRow.
    cbn [State.score State.highScore].
    split; [split; [lia|] | exact Hh].
    apply Z.divide_add_r; [exact Hdiv | apply Z.divide_factor_l].
Qed.

(** X20. In a play the score and the high score are non-negative multiples
    of 100. *)
Theorem X20_counters_are_hundreds (seed : nat) (s : State.t) :
  reachable seed s ->
  (exists rowsCleared : nat, State.score s = 100 * Z.of_nat rowsCleared)
  /\ (exists rowsCleared : nat, State.highScore s = 100 * Z.of_nat rowsCleared).
Proof.
  intros Hreach.
  destruct (reachable_hundreds seed s Hreach) as [[Hs [k Hk]] [Hh [h Hh']]].
  split.
  - exists (Z.to_nat k). rewrite Z2Nat.id; lia.
  - exists (Z.to_nat h). rewrite Z2Nat.id; lia.
Qed.

Lemma X20_witness :
  reachable 5 afterFirstClear
  /\ State.score afterFirstClear = 100
  /\ exists rowsCleared : nat,
       State.score afterFirstClear = 100 * Z.of_nat rowsCleared.
Proof.
  assert (reachable 5 afterFirstClear) as Hreach
      by exact (run_reachable 5 clearTrace afterFirstClear
                  clearTrace_playable clearTrace_run).
  split; [exact Hreach|]. split; [reflexivity|].
  exact (proj1 (X20_counters_are_hundreds 5 afterFirstClear Hreach)).
Defined.

(** ** How many locks a full line takes *)

Lemma lockedCubes_bound (gameBoard : list Tetrominos.t) :
  Forall (fun t => (length (Tetrominos.cubes t) <= 4)%nat /\ NoDup (Tetrominos.cubes t))
         gameBoard ->
  (lockedCubes gameBoard <= 4 * length gameBoard)%nat.
Proof.
  unfold lockedCubes, boardCells.
  induction 1 as [|t b [Hlen _] Hall IH]; simpl; [lia|].
  rewrite length_app. unfold pieceCells at 1. rewrite length_map. lia.
Qed.

(** X22. In a play that starts from a catalogue piece, a board with a full
    row holds at least three locked pieces and a board with a full column
    (a game that is over) at least five. *)
Theorem X22_full_lines_need_locks (seed : nat) (s : State.t) :
  validDraw seed = true ->
  reachable seed s ->
  (getFullRows s <> [] -> (3 <= length (State.gameBoard s))%nat)
  /\ (isGameEnd s = true -> (5 <= length (State.gameBoard s))%nat).
Proof.
  intros Hseed Hreach.
  destruct (reachable_fourDistinct seed s Hseed Hreach) as (_ & _ & Hboard).
  pose proof (lockedCubes_bound (State.gameBoard s) Hboard) as Hbound.
  split.
  - intros Hrows.
    destruct (getFullRows s) as [|row rows] eqn:E; [contradiction|].
    assert (In row (getFullRows s)) as Hin by (rewrite E; now left).
    apply (getFullRows_In s row) in Hin. destruct Hin as [_ Hfull].
    apply (isRowFull_count (State.gameBoard s) row) in Hfull.
    unfold Constants.GRID_WIDTH in Hfull.
    assert (cubesInRow (State.gameBoard s) row <= lockedCubes (State.gameBoard s))%nat
      by apply filter_length_le.
    lia.
  - intros Hend. apply (isGameEnd_columns s) in Hend.
    destruct Hend as (col & _ & Hfull).
    apply (isColFull_count (State.gameBoard s) col) in Hfull.
    unfold Constants.GRID_HEIGHT in Hfull.
    assert (cubesInCol (State.gameBoard s) col <= lockedCubes (State.gameBoard s))%nat
      by apply filter_length_le.
    lia.
Qed.

Lemma X22_witness :
  validDraw 5 = true
  /\ reachable 5 overTheBrim
  /\ getFullRows overTheBrim <> []
  /\ isGameEnd overTheBrim = true
  /\ (3 <= length (State.gameBoard overTheBrim))%nat
  /\ (5 <= length (State.gameBoard overTheBrim))%nat.
Proof.
  assert (getFullRows overTheBrim <> []) as Hrows by (vm_compute; discriminate).
  assert (isGameEnd overTheBrim = true) as Hover by (vm_compute; reflexivity).
  destruct (X22_full_lines_need_locks 5 overTheBrim eq_refl overTheBrim_reachable)
    as [Hrow Hcol].
  split; [reflexivity|]. split; [exact overTheBrim_reachable|].
  split; [exact Hrows|]. split; [exact Hover|].
  split; [exact (Hrow Hrows) | exact (Hcol Hover)].
Defined.
